(** * Actor-critic example: a shallow embedding of
      [examples/reinforcement_learning/actor_critic.py]

    Numbers.  The script computes with Python floats and torch tensors.  The
    embedding reads every scalar as a real number ([R]): the arithmetic laws
    the properties below rest on (associativity, distributivity) hold there
    exactly.  What IEEE arithmetic adds to the picture and the reals lack is
    the "not a number" value; where the script can produce one (the mean and
    the standard deviation of a tensor that is too short, a division by zero)
    the embedding returns [None].  The module [Binary64] repeats the numeric
    kernel on machine floats, to run it on concrete episodes.  Rounding is
    monotone; where a property is about an order that rounding keeps, the
    rounding is a parameter of the statement ([monotone], [Rounded]).

    State.  The script mutates one [Policy] object (its weights and its two
    per-episode lists), an optimizer, the environment and the engine's state.
    The embedding passes these explicitly; a Python exception is the
    constructor [Raised] of [result]. *)

From Stdlib Require Import String.
From Stdlib Require Import Reals Lra List Arith Lia Bool Sorted.
From Stdlib Require Import Floats.PrimFloat.
Import ListNotations.

#[local] Set Warnings "-abstract-large-number,-inexact-float".

Open Scope R_scope.

(** ** Exceptions and results *)

Inductive exn : Type :=
| RuntimeError (msg : string)
| AttributeError (msg : string)
| ValueError (msg : string).

Inductive result (A : Type) : Type :=
| Ok (a : A)
| Raised (e : exn).

Arguments Ok {A} a.
Arguments Raised {A} e.

Definition bind {A B : Type} (m : result A) (k : A -> result B) : result B :=
  match m with
  | Ok a => k a
  | Raised e => Raised e
  end.

Notation "x <- m ;; k" := (bind m (fun x => k))
  (at level 61, m at next level, right associativity).

(** ** Lists of reals *)

Definition Rsum (xs : list R) : R := fold_right Rplus 0 xs.

(** ** Tensor entries

    An entry of a float tensor is a finite number or it is not (nan, or an
    infinity): [None] stands for "not finite".  Sums, differences and
    products of a non-finite entry are non-finite; a quotient by zero is
    non-finite (0/0 is nan, x/0 an infinity); the square root of a negative
    number is nan. *)

Module Num.

Definition num : Type := option R.

Definition lift2 (f : R -> R -> R) (x y : num) : num :=
  match x, y with
  | Some a, Some b => Some (f a b)
  | _, _ => None
  end.

Definition add : num -> num -> num := lift2 Rplus.
Definition sub : num -> num -> num := lift2 Rminus.
Definition mul : num -> num -> num := lift2 Rmult.

Definition div (x y : num) : num :=
  match x, y with
  | Some a, Some b => if Req_dec_T b 0 then None else Some (a / b)
  | _, _ => None
  end.

Definition sqrt (x : num) : num :=
  match x with
  | Some a => if Rle_dec 0 a then Some (R_sqrt.sqrt a) else None
  | None => None
  end.

Definition finite (x : num) : Prop := exists a, x = Some a.

End Num.

(** ** The torch operations the script calls *)

Module torch.
Import Num.

Definition tensor : Type := list num.

(** [torch.tensor(xs)] of a list of Python floats. *)
Definition of_list (xs : list R) : tensor := map Some xs.

Definition sum (t : tensor) : num := fold_right add (Some 0) t.

(** [t.mean()]: the sum over the number of entries (nan for no entry). *)
Definition mean (t : tensor) : num :=
  div (sum t) (Some (INR (length t))).

(** [t.std()]: torch's default is the sample standard deviation (Bessel's
    correction), the square root of the sum of squared deviations over
    [n - 1]; for one entry that quotient is 0/0. *)
Definition std (t : tensor) : num :=
  let m := mean t in
  let sq := map (fun x => mul (sub x m) (sub x m)) t in
  sqrt (div (sum sq) (Some (INR (length t - 1)))).

(** [torch.stack] refuses an empty list. *)
Definition stack (ts : list num) : result tensor :=
  match ts with
  | [] => Raised (RuntimeError "stack expects a non-empty TensorList")
  | _ => Ok ts
  end.

(** [t.item()] of a tensor of reals: defined for one entry only. *)
Definition item (t : list R) : result R :=
  match t with
  | [v] => Ok v
  | _ => Raised (ValueError "only one element tensors can be converted to Python scalars")
  end.

Definition relu (x : R) : R := Rmax 0 x.

(** [F.softmax(xs, dim=-1)]. *)
Definition softmax (xs : list R) : list R :=
  let z := Rsum (map exp xs) in
  map (fun x => exp x / z) xs.

(** [F.smooth_l1_loss(input, target)] of two one-entry tensors, with the
    default [beta = 1]. *)
Definition smooth_l1 (input target : R) : R :=
  let d := Rabs (input - target) in
  if Rlt_dec d 1 then 0.5 * d * d else d - 0.5.

Definition smooth_l1_loss (input : R) (target : num) : num :=
  match target with
  | Some r => Some (smooth_l1 input r)
  | None => None
  end.

(** [nn.Linear(in_features, out_features)]: a weight matrix of
    [out_features] rows and [in_features] columns, and a bias vector. *)
Record Linear (in_features out_features : nat) : Type := {
  weight : nat -> nat -> R;
  bias : nat -> R
}.

Arguments weight {in_features out_features} l i j.
Arguments bias {in_features out_features} l i.

Definition affine {n m : nat} (l : Linear n m) (x : list R) (i : nat) : R :=
  Rsum (map (fun j => weight l i j * nth j x 0) (seq 0 n)) + bias l i.

(** Applying the layer to a vector: a shape error unless the vector has
    [in_features] entries. *)
Definition linear {n m : nat} (l : Linear n m) (x : list R) : result (list R) :=
  if (length x =? n)%nat
  then Ok (map (affine l x) (seq 0 m))
  else Raised (RuntimeError "mat1 and mat2 shapes cannot be multiplied").

(** [Categorical(probs)]: the probabilities, normalised to sum to one. *)
Definition Categorical (probs : list R) : list R :=
  map (fun p => p / Rsum probs) probs.

(** [m.sample()], as a function of the uniform draw [u] the generator
    supplies: the first index whose cumulative probability exceeds [u], and
    the last index when none does. *)
Fixpoint sample (m : list R) (u : R) : nat :=
  match m with
  | [] => 0
  | [_] => 0
  | p :: rest => if Rlt_dec u p then 0%nat else S (sample rest (u - p))
  end.

(** [m.log_prob(action)]. *)
Definition log_prob_of (m : list R) (action : nat) : R := ln (nth action m 0).

End torch.

(** ** Discounted returns: lines 49 and 53-56 of [finish_episode]

    <<
    R = 0
    rewards = []
    for r in model.rewards[::-1]:
        R = r + gamma * R
        rewards.insert(0, R)
    >>
    The loop state is the pair of [R] and the list built so far. *)

Module Returns.

Definition step (gamma : R) (st : R * list R) (r : R) : R * list R :=
  let R' := r + gamma * fst st in
  (R', R' :: snd st).

Definition discounted_returns (gamma : R) (rewards : list R) : list R :=
  snd (fold_left (step gamma) (rev rewards) (0, [])).

(** The closed form of the return at the 1-based position [t] of an episode
    of [T = length rewards] steps:
    r_t + gamma * r_(t+1) + ... + gamma^(T-t) * r_T. *)

Definition reward_at (rewards : list R) (i : nat) : R := nth (i - 1) rewards 0.

Definition closed_form (gamma : R) (rewards : list R) (t : nat) : R :=
  sum_f_R0 (fun k => gamma ^ k * reward_at rewards (t + k)) (length rewards - t).

End Returns.

(** ** The policy network and the two functions that use it *)

Record SavedAction : Type := {
  log_prob : R;
  value : list R
}.

(** [Policy]: the three layers of [__init__] and the two per-episode lists. *)
Record Policy : Type := {
  affine1 : torch.Linear 4 128;
  action_head : torch.Linear 128 2;
  value_head : torch.Linear 128 1;
  saved_actions : list SavedAction;
  rewards : list R
}.

Definition Weights : Type :=
  (torch.Linear 4 128 * torch.Linear 128 2 * torch.Linear 128 1)%type.

Definition parameters (model : Policy) : Weights :=
  (affine1 model, action_head model, value_head model).

(** [Policy()]: fresh layers and two empty lists. *)
Definition new_Policy (w : Weights) : Policy :=
  let '(a, h, v) := w in
  {| affine1 := a; action_head := h; value_head := v;
     saved_actions := []; rewards := [] |}.

Definition forward (model : Policy) (x : list R) : result (list R * list R) :=
  h <- torch.linear (affine1 model) x ;;
  let x := map torch.relu h in
  action_scores <- torch.linear (action_head model) x ;;
  state_values <- torch.linear (value_head model) x ;;
  Ok (torch.softmax action_scores, state_values).

Definition append_saved_action (model : Policy) (a : SavedAction) : Policy :=
  {| affine1 := affine1 model; action_head := action_head model;
     value_head := value_head model;
     saved_actions := saved_actions model ++ [a];
     rewards := rewards model |}.

Definition append_reward (model : Policy) (r : R) : Policy :=
  {| affine1 := affine1 model; action_head := action_head model;
     value_head := value_head model;
     saved_actions := saved_actions model;
     rewards := rewards model ++ [r] |}.

(** [select_action(model, observation)]; [u] is the draw that
    [m.sample()] takes from the random generator. *)
Definition select_action (model : Policy) (observation : list R) (u : R)
  : result (nat * Policy) :=
  out <- forward model observation ;;
  let '(probs, observation_value) := out in
  let m := torch.Categorical probs in
  let action := torch.sample m u in
  Ok (action,
      append_saved_action model
        {| log_prob := torch.log_prob_of m action; value := observation_value |}).

(** Line 58: [(rewards - rewards.mean()) / (rewards.std() + eps)]. *)
Definition normalize (eps : R) (t : torch.tensor) : torch.tensor :=
  let m := torch.mean t in
  let s := torch.std t in
  map (fun x => Num.div (Num.sub x m) (Num.add s (Some eps))) t.

(** The returns as [finish_episode] uses them: discounted, made a tensor,
    normalised. *)
Definition normalized_returns (gamma eps : R) (rewards : list R) : torch.tensor :=
  normalize eps (torch.of_list (Returns.discounted_returns gamma rewards)).

(** Lines 59-62: the loop over [zip(saved_actions, rewards)], which stops
    with the shorter of the two; the state is the pair of loss lists. *)
Fixpoint loss_terms (zipped : list (SavedAction * Num.num))
  : result (list Num.num * list Num.num) :=
  match zipped with
  | [] => Ok ([], [])
  | (a, r) :: rest =>
      v <- torch.item (value a) ;;
      let reward := Num.sub r (Some v) in
      let policy_loss := Num.mul (Some (- log_prob a)) reward in
      let value_loss := torch.smooth_l1_loss v r in
      acc <- loss_terms rest ;;
      Ok (policy_loss :: fst acc, value_loss :: snd acc)
  end.

(** What the script only consumes: the optimizer, the environment and the
    random generator.  [backward_step] stands for [loss.backward()] followed
    by [optimizer.step()]. *)
Class Externals : Type := {
  Optimizer : Type;
  Adam : Weights -> R -> Optimizer;
  backward_step : Optimizer -> Weights -> Num.num -> Optimizer * Weights;
  Env : Type;
  gym_make : string -> Env;
  env_seed : Env -> Z -> Env;
  env_reset : Env -> Env * list R;
  env_step : Env -> nat -> Env * (list R * R * bool);
  env_render : Env -> Env;
  reward_threshold : Env -> R;
  Rng : Type;
  manual_seed : Z -> Rng;
  uniform : Rng -> R * Rng;
  init_weights : Rng -> Weights * Rng
}.

Section Script.
Context {ext : Externals}.

Definition clear_buffers (model : Policy) (w : Weights) : Policy :=
  let '(a, h, v) := w in
  {| affine1 := a; action_head := h; value_head := v;
     saved_actions := []; rewards := [] |}.

(** [finish_episode(model, optimizer, gamma, eps)].  The result is the model
    and the optimizer as the call leaves them, and the exception it ends
    with, if any. *)
Definition finish_episode (model : Policy) (optimizer : Optimizer) (gamma eps : R)
  : Policy * Optimizer * option exn :=
  let saved := saved_actions model in
  let rewards := normalized_returns gamma eps (rewards model) in
  match
    (terms <- loss_terms (combine saved rewards) ;;
     policy_losses <- torch.stack (fst terms) ;;
     value_losses <- torch.stack (snd terms) ;;
     Ok (Num.add (torch.sum policy_losses) (torch.sum value_losses)))
  with
  | Raised e => (model, optimizer, Some e)
  | Ok loss =>
      let '(optimizer', w) := backward_step optimizer (parameters model) loss in
      (clear_buffers model w, optimizer', None)
  end.

(** *** The engine's state and the world the callbacks act on *)

Record State : Type := {
  epoch : nat;
  observation : option (list R);
  timestep : option nat;
  running_reward : option R
}.

(** What the script prints, one constructor per [print] call. *)
Inductive line : Type :=
| Episode (i_episode last_length : nat) (average_length : R)
| Solved (running_reward : R) (last_timestep : nat).

Record World : Type := {
  model : Policy;
  optimizer : Optimizer;
  env : Env;
  rng : Rng;
  state : State;
  should_terminate : bool;
  should_terminate_single_epoch : bool;
  stdout : list line
}.

Definition with_state (w : World) (st : State) : World :=
  {| model := model w; optimizer := optimizer w; env := env w; rng := rng w;
     state := st; should_terminate := should_terminate w;
     should_terminate_single_epoch := should_terminate_single_epoch w;
     stdout := stdout w |}.

Definition with_flags (w : World) (terminate single : bool) : World :=
  {| model := model w; optimizer := optimizer w; env := env w; rng := rng w;
     state := state w; should_terminate := terminate;
     should_terminate_single_epoch := single;
     stdout := stdout w |}.

Definition print (w : World) (l : line) : World :=
  {| model := model w; optimizer := optimizer w; env := env w; rng := rng w;
     state := state w; should_terminate := should_terminate w;
     should_terminate_single_epoch := should_terminate_single_epoch w;
     stdout := stdout w ++ [l] |}.

Definition set_epoch (st : State) (e : nat) : State :=
  {| epoch := e; observation := observation st; timestep := timestep st;
     running_reward := running_reward st |}.

Definition set_observation (st : State) (o : list R) : State :=
  {| epoch := epoch st; observation := Some o; timestep := timestep st;
     running_reward := running_reward st |}.

Definition set_timestep (st : State) (t : nat) : State :=
  {| epoch := epoch st; observation := observation st; timestep := Some t;
     running_reward := running_reward st |}.

Definition set_running_reward (st : State) (r : R) : State :=
  {| epoch := epoch st; observation := observation st; timestep := timestep st;
     running_reward := Some r |}.

(** Reading an attribute of [engine.state] that was never assigned. *)
Definition getattr {A : Type} (name : string) (o : option A) : result A :=
  match o with
  | Some a => Ok a
  | None => Raised (AttributeError name)
  end.

Record Args : Type := {
  gamma : R;
  seed : Z;
  render : bool;
  log_interval : nat;
  max_episodes : nat
}.

(** *** The callbacks of [main] *)

Definition terminate_epoch (w : World) : World :=
  with_flags w (should_terminate w) true.

Definition run_single_timestep (args : Args) (w : World) (t : nat) : result World :=
  obs <- getattr "observation" (observation (state w)) ;;
  let '(u, rng') := uniform (rng w) in
  sel <- select_action (model w) obs u ;;
  let '(action, model') := sel in
  let '(env', (obs', reward, done)) := env_step (env w) action in
  let env'' := if render args then env_render env' else env' in
  let w1 :=
    {| model := append_reward model' reward; optimizer := optimizer w;
       env := env''; rng := rng';
       state := set_observation (state w) obs';
       should_terminate := should_terminate w;
       should_terminate_single_epoch := should_terminate_single_epoch w;
       stdout := stdout w |} in
  if done
  then let w2 := terminate_epoch w1 in Ok (with_state w2 (set_timestep (state w2) t))
  else Ok w1.

Definition initialize (w : World) : result World :=
  Ok (with_state w (set_running_reward (state w) 10)).

Definition reset_environment_state (w : World) : result World :=
  let '(env', obs) := env_reset (env w) in
  Ok {| model := model w; optimizer := optimizer w; env := env'; rng := rng w;
        state := set_observation (state w) obs;
        should_terminate := should_terminate w;
        should_terminate_single_epoch := should_terminate_single_epoch w;
        stdout := stdout w |}.

Definition update_model (args : Args) (eps : R) (w : World) : result World :=
  t <- getattr "timestep" (timestep (state w)) ;;
  rr <- getattr "running_reward" (running_reward (state w)) ;;
  let st := set_running_reward (state w) (rr * 0.99 + INR t * 0.01) in
  let '(model', optimizer', raised) :=
    finish_episode (model w) (optimizer w) (gamma args) eps in
  match raised with
  | Some e => Raised e
  | None =>
      Ok {| model := model'; optimizer := optimizer'; env := env w; rng := rng w;
            state := st; should_terminate := should_terminate w;
            should_terminate_single_epoch := should_terminate_single_epoch w;
            stdout := stdout w |}
  end.

Definition log_episode (w : World) : result World :=
  let i_episode := epoch (state w) in
  t <- getattr "timestep" (timestep (state w)) ;;
  rr <- getattr "running_reward" (running_reward (state w)) ;;
  Ok (print w (Episode i_episode t rr)).

Definition should_finish_training (w : World) : result World :=
  rr <- getattr "running_reward" (running_reward (state w)) ;;
  if Rgt_dec rr (reward_threshold (env w))
  then
    t <- getattr "timestep" (timestep (state w)) ;;
    Ok (with_flags (print w (Solved rr t)) true (should_terminate_single_epoch w))
  else Ok w.

(** *** The training driver *)

(** Modelled from the spec: an event handler of the training driver, and
    the driver's registry (the step callback and the handlers registered on
    each event, in the order of their registration). *)
Definition handler : Type := World -> result World.

(** Modelled from the spec: see [handler]. *)
Record Trainer : Type := {
  process_function : World -> nat -> result World;
  on_started : list handler;
  on_epoch_started : list handler;
  on_epoch_completed : list handler
}.

(** Modelled from the spec: the event filter [EPOCH_COMPLETED(every=n)] of
    the training driver, whose source is not part of the example; the spec
    calls the handler it guards "periodic logging". *)
Definition every (n : nat) (h : handler) : handler :=
  fun w => if (epoch (state w) mod n =? 0)%nat then h w else Ok w.

(** Modelled from the spec: firing an event runs its handlers in the order
    of their registration; an exception in one ends the run. *)
Fixpoint fire (hs : list handler) (w : World) : result World :=
  match hs with
  | [] => Ok w
  | h :: rest => w' <- h w ;; fire rest w'
  end.

(** Modelled from the spec: the training driver ([ignite.engine.Engine]),
    whose source is not part of the example.  Section 4.3 of the spec gives
    the contract: (a) the step callback is invoked on the step indices in
    increasing order; (b) the episode-boundary callbacks fire before the
    first step and after the episode has ended; (c) the step callback can
    signal that the episode ended early; (d) a global early-stop flag is
    checked between episodes.  This is the pass over the steps of one
    episode, contracts (a) and (c). *)
Fixpoint run_once_on_dataset (tr : Trainer) (data : list nat) (w : World)
  : result World :=
  match data with
  | [] => Ok w
  | batch :: rest =>
      w' <- process_function tr w batch ;;
      if should_terminate_single_epoch w'
      then Ok (with_flags w' (should_terminate w') false)
      else run_once_on_dataset tr rest w'
  end.

(** Modelled from the spec: the driver counts the episodes it starts. *)
Definition begin_epoch (w : World) : World :=
  with_state w (set_epoch (state w) (S (epoch (state w)))).

(** Modelled from the spec: one episode of the training driver, contract (b). *)
Definition run_epoch (tr : Trainer) (data : list nat) (w : World) : result World :=
  let w := begin_epoch w in
  w <- fire (on_epoch_started tr) w ;;
  w <- run_once_on_dataset tr data w ;;
  fire (on_epoch_completed tr) w.

(** Modelled from the spec: the loop over episodes of the training driver,
    contract (d): it runs at most [max_epochs] episodes and checks the
    early-stop flag before each. *)
Fixpoint internal_run (tr : Trainer) (data : list nat) (remaining : nat) (w : World)
  : result World :=
  match remaining with
  | O => Ok w
  | S remaining' =>
      if should_terminate w then Ok w
      else w' <- run_epoch tr data w ;; internal_run tr data remaining' w'
  end.

(** Modelled from the spec: [Engine.run(data, max_epochs)] of the training
    driver: the started event, then the loop. *)
Definition Engine_run (tr : Trainer) (data : list nat) (max_epochs : nat) (w : World)
  : result World :=
  w <- fire (on_started tr) w ;;
  internal_run tr data max_epochs w.

(** *** Vocabulary for the properties of a training run *)

(** [k] episodes in a row. *)
Fixpoint iter_epoch (tr : Trainer) (data : list nat) (k : nat) (w : World)
  : result World :=
  match k with
  | O => Ok w
  | S k' => w' <- run_epoch tr data w ;; iter_epoch tr data k' w'
  end.

(** The worlds at which the driver's loop decides whether to run another
    episode, in a run that enters the loop at [w0]. *)
Inductive loop_head (tr : Trainer) (data : list nat) (w0 : World) : World -> Prop :=
| loop_entry : loop_head tr data w0 w0
| loop_again w w' :
    loop_head tr data w0 w ->
    should_terminate w = false ->
    run_epoch tr data w = Ok w' ->
    loop_head tr data w0 w'.

(** The worlds at an episode boundary: the episode's last step has run and
    the episode-completed handlers are about to fire. *)
Definition episode_boundary (tr : Trainer) (data : list nat) (w0 w1 : World) : Prop :=
  exists w ws,
    loop_head tr data w0 w
    /\ should_terminate w = false
    /\ fire (on_epoch_started tr) (begin_epoch w) = Ok ws
    /\ run_once_on_dataset tr data ws = Ok w1.

Definition buffers_empty (w : World) : Prop :=
  rewards (model w) = [] /\ saved_actions (model w) = [].

(** The running reward is above the environment's reward threshold. *)
Definition exceeds_threshold (w : World) : Prop :=
  exists rr, running_reward (state w) = Some rr /\ rr > reward_threshold (env w).

(** The exceptions that come out of a library call. *)
Definition raised_by_library (e : exn) : Prop :=
  e = RuntimeError "mat1 and mat2 shapes cannot be multiplied"
  \/ e = RuntimeError "stack expects a non-empty TensorList"
  \/ e = ValueError "only one element tensors can be converted to Python scalars"
  \/ exists name, e = AttributeError name.

(** What the properties ask of the environment: observations of four
    entries, and episodes that end within [n] steps whatever the actions. *)
Definition step_observation (e : Env) (a : nat) : list R := fst (fst (snd (env_step e a))).

Definition step_done (e : Env) (a : nat) : bool := snd (snd (env_step e a)).

Definition env_after (args : Args) (e : Env) (a : nat) : Env :=
  let env' := fst (env_step e a) in
  if render args then env_render env' else env'.

Definition well_shaped_env : Prop :=
  (forall e, length (snd (env_reset e)) = 4%nat)
  /\ (forall e a, length (step_observation e a) = 4%nat).

Fixpoint ends_within (args : Args) (n : nat) (e : Env) : Prop :=
  match n with
  | O => False
  | S n' => forall a, step_done e a = true \/ ends_within args n' (env_after args e a)
  end.

(** *** [main] and the script's top level *)

(** [np.finfo(np.float32).eps.item()], 2^-23. *)
Definition float32_eps : R := / 2 ^ 23.

Definition trainer (args : Args) (eps : R) : Trainer :=
  {| process_function := run_single_timestep args;
     on_started := [initialize];
     on_epoch_started := [reset_environment_state];
     on_epoch_completed :=
       [update_model args eps;
        every (log_interval args) log_episode;
        should_finish_training] |}.

Definition initial_state : State :=
  {| epoch := 0; observation := None; timestep := None; running_reward := None |}.

Definition main (env0 : Env) (args : Args) (rng0 : Rng) : result World :=
  let '(w, rng1) := init_weights rng0 in
  let model := new_Policy w in
  let optimizer := Adam (parameters model) 0.03 in
  let eps := float32_eps in
  let timesteps := seq 0 10000 in
  Engine_run (trainer args eps) timesteps (max_episodes args)
    {| model := model; optimizer := optimizer; env := env0; rng := rng1;
       state := initial_state; should_terminate := false;
       should_terminate_single_epoch := false; stdout := [] |}.

(** The module's top level: the guarded import of [gym] (lines 13-16), then
    the [__main__] block. *)
Definition script (gym_importable : bool) (args : Args) : result World :=
  if gym_importable
  then
    let env0 := env_seed (gym_make "CartPole-v1") (seed args) in
    let rng0 := manual_seed (seed args) in
    main env0 args rng0
  else Raised (RuntimeError "Please install opengym: pip install gym").

End Script.

(** ** Vocabulary for the properties of the numeric part *)

(** The same reductions on lists of reals. *)
Definition rmean (xs : list R) : R := Rsum xs / INR (length xs).

Definition rss (xs : list R) : R :=
  Rsum (map (fun x => (x - rmean xs) * (x - rmean xs)) xs).

Definition rstd (xs : list R) : R :=
  R_sqrt.sqrt (rss xs / INR (length xs - 1)).

Definition non_constant (xs : list R) : Prop :=
  exists a b, In a xs /\ In b xs /\ a <> b.

(** Line 58 on a tensor of at least two finite entries. *)
Definition rnormalize (eps : R) (xs : list R) : list R :=
  map (fun x => (x - rmean xs) / (rstd xs + eps)) xs.

(** *** Rounding

    Line 57 stores each return, a Python float, in a single-precision
    tensor, and the loop of lines 52-56 rounds the result of each of its two
    operations.  Rounding to the nearest float is monotone and leaves 0 as it
    is; the properties that are about an order take the rounding as a
    parameter and ask no more of it. *)
Definition monotone (f : R -> R) : Prop := forall x y, x <= y -> f x <= f y.



(** The loop of lines 52-56 with [rnd] the rounding of a product and of a
    sum; [Returns] is the same loop when [rnd] changes nothing. *)
Module Rounded.

Definition step (rnd : R -> R) (gamma : R) (st : R * list R) (r : R) : R * list R :=
  let R' := rnd (r + rnd (gamma * fst st)) in
  (R', R' :: snd st).

Definition discounted_returns (rnd : R -> R) (gamma : R) (rewards : list R) : list R :=
  snd (fold_left (step rnd gamma) (rev rewards) (0, [])).

End Rounded.


(** The hidden layer of [forward]. *)
Definition hidden (model : Policy) (x : list R) : list R :=
  map torch.relu (map (torch.affine (affine1 model) x) (seq 0 128)).

(** A saved value as [select_action] records it: a tensor of one entry. *)
Definition one_entry (a : SavedAction) : Prop := length (value a) = 1%nat.

(** ** The same arithmetic on machine floats

    The return loop and line 58 once more, on binary64 floats, to evaluate
    them on concrete episodes with their rounding and their nan.  (Python's
    floats are binary64; torch holds the tensor in binary32, where a nan and
    an exact zero arise as they do here.) *)

Module Binary64.

Definition step (gamma : float) (st : float * list float) (r : float)
  : float * list float :=
  let R' := (r + gamma * fst st)%float in
  (R', R' :: snd st).

Definition discounted_returns (gamma : float) (rewards : list float) : list float :=
  snd (fold_left (step gamma) (rev rewards) (0%float, [])).

Definition sum (t : list float) : float := fold_right PrimFloat.add 0%float t.

Definition numel (t : list float) : float :=
  fold_right (fun _ n => (n + 1)%float) 0%float t.

Definition mean (t : list float) : float := (sum t / numel t)%float.

Definition std (t : list float) : float :=
  let m := mean t in
  let sq := map (fun x => ((x - m) * (x - m))%float) t in
  PrimFloat.sqrt (sum sq / (numel t - 1))%float.

Definition normalize (eps : float) (t : list float) : list float :=
  let m := mean t in
  let s := std t in
  map (fun x => ((x - m) / (s + eps))%float) t.

Definition float32_eps : float := 0x1p-23%float.

Definition normalized_returns (gamma eps : float) (rewards : list float) : list float :=
  normalize eps (discounted_returns gamma rewards).

(** No entry is above the one before it. *)
Fixpoint non_increasing (t : list float) : bool :=
  match t with
  | x :: (y :: _) as rest => PrimFloat.leb y x && non_increasing rest
  | _ => true
  end.

End Binary64.

(** ** A small instance to run the script on

    An optimizer that leaves the weights alone, an environment that counts
    its steps and ends every episode at the second, with reward 1 a step, a
    generator that always draws 0, and a network of zero weights. *)

Definition zero_layer (n m : nat) : torch.Linear n m :=
  {| torch.weight := fun _ _ => 0; torch.bias := fun _ => 0 |}.

Definition zero_weights : Weights :=
  (zero_layer 4 128, zero_layer 128 2, zero_layer 128 1).

Definition zero_policy : Policy := new_Policy zero_weights.

Definition two_step_world : Externals :=
  {| Optimizer := unit;
     Adam := fun _ _ => tt;
     backward_step := fun o w _ => (o, w);
     Env := nat;
     gym_make := fun _ => 0%nat;
     env_seed := fun e _ => e;
     env_reset := fun _ => (0%nat, [0; 0; 0; 0]);
     env_step := fun e _ => (S e, ([0; 0; 0; 0], 1, (1 <=? e)%nat));
     env_render := fun e => e;
     reward_threshold := fun _ => 9.5;
     Rng := unit;
     manual_seed := fun _ => tt;
     uniform := fun g => (0, g);
     init_weights := fun g => (zero_weights, g) |}.

(** The same, but for an environment that hands out observations of no
    entry at all. *)
Definition empty_observation_world : Externals :=
  {| Optimizer := unit;
     Adam := fun _ _ => tt;
     backward_step := fun o w _ => (o, w);
     Env := unit;
     gym_make := fun _ => tt;
     env_seed := fun e _ => e;
     env_reset := fun e => (e, []);
     env_step := fun e _ => (e, ([], 1, true));
     env_render := fun e => e;
     reward_threshold := fun _ => 9.5;
     Rng := unit;
     manual_seed := fun _ => tt;
     uniform := fun g => (0, g);
     init_weights := fun g => (zero_weights, g) |}.

(** The defaults of the argument parser (lines 134-146). *)
Definition default_args : Args :=
  {| gamma := 0.99; seed := 543; render := false;
     log_interval := 10; max_episodes := 1000000 |}.

(** The world [main] hands to the loop, once [initialize] has run. *)
Definition started_world : @World two_step_world :=
  @Build_World two_step_world zero_policy tt 0%nat tt
    (set_running_reward initial_state 10) false false [].

(** ** Vocabulary for further properties of the script *)

(** The loss [finish_episode] hands to [loss.backward()] (lines 59-64), or
    the exception the loop or [torch.stack] ends with. *)
Definition episode_loss (model : Policy) (gamma eps : R) : result Num.num :=
  terms <- loss_terms (combine (saved_actions model)
                         (normalized_returns gamma eps (rewards model))) ;;
  policy_losses <- torch.stack (fst terms) ;;
  value_losses <- torch.stack (snd terms) ;;
  Ok (Num.add (torch.sum policy_losses) (torch.sum value_losses)).

(** The two loss terms of one timestep, on finite numbers: line 61,
    [-log_prob * (r - value.item())], and line 62,
    [F.smooth_l1_loss(value, torch.tensor([r]))]. *)
Definition item_value (a : SavedAction) : R := hd 0 (value a).

Definition policy_loss (a : SavedAction) (r : R) : R :=
  - log_prob a * (r - item_value a).

Definition value_loss (a : SavedAction) (r : R) : R :=
  torch.smooth_l1 (item_value a) r.

Definition total_loss (saved : list SavedAction) (rs : list R) : R :=
  Rsum (map (fun p => policy_loss (fst p) (snd p)) (combine saved rs))
  + Rsum (map (fun p => value_loss (fst p) (snd p)) (combine saved rs)).

(** A model with further records at the end of [saved_actions]. *)
Definition extend_saved_actions (model : Policy) (extra : list SavedAction) : Policy :=
  {| affine1 := affine1 model; action_head := action_head model;
     value_head := value_head model;
     saved_actions := saved_actions model ++ extra;
     rewards := rewards model |}.

Section StepVocabulary.
Context {ext : Externals}.

(** [w'] is reached from [w] by one or more runs of the per-step callback,
    none of which raised. *)
Inductive stepped (args : Args) : World -> World -> Prop :=
| stepped_once w t w' :
    run_single_timestep args w t = Ok w' -> stepped args w w'
| stepped_more w t w' w'' :
    stepped args w w' -> run_single_timestep args w' t = Ok w'' ->
    stepped args w w''.

End StepVocabulary.

(** The small instance at the start of an episode: the environment has
    been reset. *)
Definition observed_world : @World two_step_world :=
  @Build_World two_step_world zero_policy tt 0%nat tt
    (set_observation (set_running_reward initial_state 10) [0; 0; 0; 0])
    false false [].

(** The small instance at an episode boundary: two steps have run, the
    second recorded its index. *)
Definition boundary_world : @World two_step_world :=
  @Build_World two_step_world
    (append_reward
       (append_reward
          (append_saved_action
             (append_saved_action zero_policy {| log_prob := - ln 2; value := [0] |})
             {| log_prob := - ln 2; value := [0] |}) 1) 1)
    tt 2%nat tt
    {| epoch := 10; observation := Some [0; 0; 0; 0]; timestep := Some 1%nat;
       running_reward := Some 10 |}
    false false [].

(** The same boundary after a long episode, with the running reward still
    below the threshold 9.5 of the instance. *)
Definition long_episode_world : @World two_step_world :=
  @Build_World two_step_world (model boundary_world) tt 2%nat tt
    {| epoch := 10; observation := Some [0; 0; 0; 0]; timestep := Some 1000%nat;
       running_reward := Some 9 |}
    false false [].

(** An environment that never signals the end of an episode. *)
Definition endless_world : Externals :=
  {| Optimizer := unit;
     Adam := fun _ _ => tt;
     backward_step := fun o w _ => (o, w);
     Env := unit;
     gym_make := fun _ => tt;
     env_seed := fun e _ => e;
     env_reset := fun e => (e, [0; 0; 0; 0]);
     env_step := fun e _ => (e, ([0; 0; 0; 0], 1, false));
     env_render := fun e => e;
     reward_threshold := fun _ => 9.5;
     Rng := unit;
     manual_seed := fun _ => tt;
     uniform := fun g => (0, g);
     init_weights := fun g => (zero_weights, g) |}.

(** * Properties *)

Module ReturnsFacts.
Import Returns.

Lemma loop_cons gamma r rs :
  fold_left (step gamma) (rev (r :: rs)) (0, [])
  = step gamma (fold_left (step gamma) (rev rs) (0, [])) r.
Proof. simpl. now rewrite fold_left_app. Qed.

Lemma loop_fst_hd gamma rs :
  fst (fold_left (step gamma) (rev rs) (0, []))
  = hd 0 (discounted_returns gamma rs).
Proof.
  unfold discounted_returns.
  destruct rs as [|r rs]; [reflexivity|].
  now rewrite loop_cons.
Qed.

Lemma discounted_returns_nil gamma : discounted_returns gamma [] = [].
Proof. reflexivity. Qed.

Lemma discounted_returns_cons gamma r rs :
  discounted_returns gamma (r :: rs)
  = (r + gamma * hd 0 (discounted_returns gamma rs)) :: discounted_returns gamma rs.
Proof.
  unfold discounted_returns at 1. rewrite loop_cons.
  unfold step at 1. cbn [snd]. rewrite loop_fst_hd. reflexivity.
Qed.

Lemma discounted_returns_length gamma rs :
  length (discounted_returns gamma rs) = length rs.
Proof.
  induction rs as [|r rs IH]; [reflexivity|].
  rewrite discounted_returns_cons. simpl. now rewrite IH.
Qed.

End ReturnsFacts.

Module ReturnsClosedForm.
Import Returns ReturnsFacts.

Lemma reward_at_cons r rs i :
  (1 <= i)%nat -> reward_at (r :: rs) (S i) = reward_at rs i.
Proof.
  intro Hi. unfold reward_at. simpl.
  rewrite Nat.sub_0_r. destruct i as [|i]; [lia|].
  simpl. now rewrite Nat.sub_0_r.
Qed.

Lemma closed_form_cons gamma r rs t :
  (1 <= t)%nat -> closed_form gamma (r :: rs) (S t) = closed_form gamma rs t.
Proof.
  intro Ht. unfold closed_form. simpl length.
  replace (S (length rs) - S t)%nat with (length rs - t)%nat by lia.
  apply sum_eq. intros k _.
  replace (S t + k)%nat with (S (t + k)) by lia.
  rewrite reward_at_cons by lia. reflexivity.
Qed.

Lemma closed_form_head gamma r rs :
  closed_form gamma (r :: rs) 1
  = r + gamma * match rs with [] => 0 | _ => closed_form gamma rs 1 end.
Proof.
  unfold closed_form. simpl length.
  replace (S (length rs) - 1)%nat with (length rs) by lia.
  destruct rs as [|r' rs].
  - simpl. unfold reward_at. simpl. lra.
  - rewrite decomp_sum by (simpl; lia).
    simpl length. replace (S (length rs) - 1)%nat with (length rs) by lia.
    simpl pred.
    replace (gamma ^ 0 * reward_at (r :: r' :: rs) (1 + 0)) with r
      by (unfold reward_at; simpl; lra).
    f_equal. rewrite scal_sum. apply sum_eq. intros k _.
    replace (1 + S k)%nat with (S (1 + k)) by lia.
    rewrite reward_at_cons by lia. simpl. ring.
Qed.

Lemma discounted_returns_closed_form gamma rs :
  discounted_returns gamma rs = map (closed_form gamma rs) (seq 1 (length rs)).
Proof.
  induction rs as [|r rs IH]; [reflexivity|].
  rewrite discounted_returns_cons. simpl length. simpl seq. simpl map.
  f_equal.
  - rewrite closed_form_head. f_equal. f_equal.
    rewrite IH. destruct rs; reflexivity.
  - rewrite IH, <- (seq_shift (length rs) 1), map_map.
    apply map_ext_in. intros t Ht. apply in_seq in Ht.
    symmetry. apply closed_form_cons. lia.
Qed.

End ReturnsClosedForm.

(** C1.  The raw return [finish_episode] computes at position [t] of a reward
    sequence [r_1 .. r_T] is
    [r_t + gamma * r_(t+1) + ... + gamma^(T-t) * r_T];
    for rewards [1;1;1] and [gamma = 1] the raw returns are [3;2;1], and for
    rewards [0;0;1] and [gamma = 0.99] they are [0.9801; 0.99; 1]. *)
Theorem C1_discounted_returns_closed_form :
  (forall (gamma : R) (rewards : list R),
      Returns.discounted_returns gamma rewards
      = map (Returns.closed_form gamma rewards) (seq 1 (length rewards)))
  /\ Returns.discounted_returns 1 [1; 1; 1] = [3; 2; 1]
  /\ Returns.discounted_returns 0.99 [0; 0; 1] = [0.9801; 0.99; 1].
Proof.
  split; [exact ReturnsClosedForm.discounted_returns_closed_form|].
  split.
  - unfold Returns.discounted_returns, Returns.step. simpl.
    repeat (f_equal; try lra).
  - unfold Returns.discounted_returns, Returns.step. simpl.
    repeat (f_equal; try lra).
Qed.

(** ** Tensors of finite entries *)

Module TensorFacts.
Import Num.

Lemma div_some a b : b <> 0 -> div (Some a) (Some b) = Some (a / b).
Proof.
  intro Hb. unfold div. destruct (Req_dec_T b 0); [contradiction|reflexivity].
Qed.

Lemma div_zero a : div (Some a) (Some 0) = None.
Proof.
  unfold div. destruct (Req_dec_T 0 0) as [_|H]; [reflexivity|now elim H].
Qed.

Lemma sqrt_some a : 0 <= a -> Num.sqrt (Some a) = Some (R_sqrt.sqrt a).
Proof.
  intro Ha. unfold Num.sqrt. destruct (Rle_dec 0 a); [reflexivity|contradiction].
Qed.

Lemma sum_of_list xs : torch.sum (torch.of_list xs) = Some (Rsum xs).
Proof.
  induction xs as [|x xs IH]; [reflexivity|].
  change (torch.sum (torch.of_list (x :: xs)))
    with (add (Some x) (torch.sum (torch.of_list xs))).
  rewrite IH. reflexivity.
Qed.

Lemma length_of_list xs : length (torch.of_list xs) = length xs.
Proof. apply length_map. Qed.

Lemma INR_length_pos (xs : list R) : xs <> [] -> 0 < INR (length xs).
Proof.
  intro H. destruct xs; [contradiction|]. apply lt_0_INR. simpl. lia.
Qed.

Lemma mean_of_list xs :
  xs <> [] -> torch.mean (torch.of_list xs) = Some (rmean xs).
Proof.
  intro H. unfold torch.mean. rewrite sum_of_list, length_of_list.
  apply div_some. apply Rgt_not_eq. now apply INR_length_pos.
Qed.

Lemma Rsum_nonneg (f : R -> R) xs :
  (forall x, 0 <= f x) -> 0 <= Rsum (map f xs).
Proof.
  intro Hf. induction xs as [|x xs IH]; simpl; [lra|].
  specialize (Hf x). lra.
Qed.

Lemma Rsum_zero_all (f : R -> R) xs :
  (forall x, 0 <= f x) -> Rsum (map f xs) = 0 -> forall x, In x xs -> f x = 0.
Proof.
  intros Hf. induction xs as [|y xs IH]; simpl; intros Hs x Hin; [contradiction|].
  pose proof (Hf y). pose proof (Rsum_nonneg f xs Hf).
  destruct Hin as [->|Hin]; [lra|]. apply IH; [lra|assumption].
Qed.

Lemma rss_nonneg xs : 0 <= rss xs.
Proof.
  unfold rss. apply Rsum_nonneg. intro x.
  apply Rle_0_sqr.
Qed.

Lemma non_constant_length xs : non_constant xs -> (2 <= length xs)%nat.
Proof.
  intros (a & b & Ha & Hb & Hab).
  destruct xs as [|x [|y xs]]; simpl in *; try lia.
  destruct Ha as [<-|[]], Hb as [<-|[]]. now elim Hab.
Qed.

Lemma non_constant_rss xs : non_constant xs -> 0 < rss xs.
Proof.
  intros (a & b & Ha & Hb & Hab).
  destruct (Rle_lt_or_eq_dec _ _ (rss_nonneg xs)) as [H|H]; [exact H|].
  exfalso. symmetry in H. unfold rss in H.
  assert (Hz : forall x, In x xs -> (x - rmean xs) * (x - rmean xs) = 0).
  { apply (Rsum_zero_all (fun x => (x - rmean xs) * (x - rmean xs))); [|exact H].
    intro x. apply Rle_0_sqr. }
  apply Hab.
  pose proof (Hz a Ha) as Ea. pose proof (Hz b Hb) as Eb.
  apply Rmult_integral in Ea. apply Rmult_integral in Eb.
  destruct Ea, Eb; lra.
Qed.

Lemma squares_of_list m xs :
  map (fun x => mul (sub x (Some m)) (sub x (Some m))) (torch.of_list xs)
  = torch.of_list (map (fun x => (x - m) * (x - m)) xs).
Proof.
  unfold torch.of_list. rewrite !map_map. reflexivity.
Qed.

Lemma std_of_list xs :
  (2 <= length xs)%nat -> torch.std (torch.of_list xs) = Some (rstd xs).
Proof.
  intro H.
  assert (Hne : xs <> []) by (destruct xs; [simpl in H; lia|discriminate]).
  unfold torch.std. rewrite (mean_of_list xs Hne), squares_of_list, sum_of_list.
  rewrite length_of_list.
  assert (Hpos : 0 < INR (length xs - 1)) by (apply lt_0_INR; lia).
  rewrite div_some by lra.
  apply sqrt_some. fold (rss xs).
  apply Rmult_le_pos; [apply rss_nonneg|].
  left. now apply Rinv_0_lt_compat.
Qed.

Lemma rstd_nonneg xs : 0 <= rstd xs.
Proof. apply sqrt_pos. Qed.

Lemma non_constant_rstd xs : non_constant xs -> 0 < rstd xs.
Proof.
  intro H. unfold rstd. apply sqrt_lt_R0.
  pose proof (non_constant_length xs H).
  apply Rmult_lt_0_compat; [now apply non_constant_rss|].
  apply Rinv_0_lt_compat. apply lt_0_INR. lia.
Qed.

Lemma normalize_of_list eps xs :
  (2 <= length xs)%nat -> 0 < eps ->
  normalize eps (torch.of_list xs) = torch.of_list (rnormalize eps xs).
Proof.
  intros H Heps.
  assert (Hne : xs <> []) by (destruct xs; [simpl in H; lia|discriminate]).
  unfold normalize. rewrite (mean_of_list xs Hne), (std_of_list xs H).
  unfold rnormalize, torch.of_list. rewrite !map_map.
  apply map_ext. intro x. simpl.
  apply div_some. pose proof (rstd_nonneg xs). lra.
Qed.






End TensorFacts.

Module NormalizeFacts.
Import TensorFacts.

(** The normalized returns of an episode of at least two steps, entry by
    entry. *)
Lemma normalized_returns_finite gamma eps rs :
  (2 <= length rs)%nat -> 0 < eps ->
  normalized_returns gamma eps rs
  = torch.of_list (rnormalize eps (Returns.discounted_returns gamma rs)).
Proof.
  intros H Heps. unfold normalized_returns.
  apply normalize_of_list; [|exact Heps].
  now rewrite ReturnsFacts.discounted_returns_length.
Qed.

Lemma rnormalize_length eps xs : length (rnormalize eps xs) = length xs.
Proof. apply length_map. Qed.

Lemma rnormalize_nth eps xs i :
  (i < length xs)%nat ->
  nth i (rnormalize eps xs) 0 = (nth i xs 0 - rmean xs) / (rstd xs + eps).
Proof.
  intro Hi. unfold rnormalize.
  rewrite (nth_indep _ 0 ((0 - rmean xs) / (rstd xs + eps)))
    by (now rewrite length_map).
  apply (map_nth (fun x => (x - rmean xs) / (rstd xs + eps))).
Qed.


Lemma normalize_length eps t : length (normalize eps t) = length t.
Proof. apply length_map. Qed.

Lemma normalized_returns_length gamma eps rs :
  length (normalized_returns gamma eps rs) = length rs.
Proof.
  unfold normalized_returns.
  now rewrite normalize_length, length_of_list,
    ReturnsFacts.discounted_returns_length.
Qed.

(** A one-entry tensor has no standard deviation, and normalising it leaves
    no finite entry. *)
Lemma std_single x : torch.std [Some x] = None.
Proof.
  assert (Hm : torch.mean [Some x] = Some ((x + 0) / 1)).
  { unfold torch.mean. simpl. apply div_some. lra. }
  unfold torch.std. rewrite Hm. simpl.
  destruct (Req_dec_T 0 0) as [_|H]; [reflexivity|now elim H].
Qed.

Lemma normalize_single eps x : normalize eps [Some x] = [None].
Proof.
  unfold normalize. rewrite std_single.
  cbn [map Num.add Num.lift2].
  now destruct (Num.sub (Some x) (torch.mean [Some x])).
Qed.

End NormalizeFacts.

(** C3 (the code departs from the claim).  For an episode of one timestep
    the normalization step does not produce a finite result: the standard
    deviation of a one-entry tensor is 0/0, which adding [eps] does not
    repair, and the single normalized return is not a finite number. *)
Theorem C3_single_timestep_not_finite :
  forall (gamma eps r : R),
    torch.std (torch.of_list (Returns.discounted_returns gamma [r])) = None
    /\ normalized_returns gamma eps [r] = [None]
    /\ forall x, In x (normalized_returns gamma eps [r]) -> ~ Num.finite x.
Proof.
  intros gamma eps r.
  assert (E : normalized_returns gamma eps [r] = [None]).
  { unfold normalized_returns.
    rewrite ReturnsFacts.discounted_returns_cons. simpl torch.of_list.
    apply NormalizeFacts.normalize_single. }
  split; [|split].
  - rewrite ReturnsFacts.discounted_returns_cons. simpl torch.of_list.
    apply NormalizeFacts.std_single.
  - exact E.
  - intros x Hin [a Ha]. rewrite E in Hin.
    destruct Hin as [<-|[]]. discriminate.
Qed.

Module NormalizedMoments.
Import TensorFacts NormalizeFacts.

Lemma float32_eps_pos : 0 < float32_eps.
Proof.
  unfold float32_eps. apply Rinv_0_lt_compat. apply pow_lt. lra.
Qed.




End NormalizedMoments.




(** ** The network and the action selector *)

Module NetworkFacts.

Lemma linear_ok {n m : nat} (l : torch.Linear n m) (x : list R) :
  length x = n -> torch.linear l x = Ok (map (torch.affine l x) (seq 0 m)).
Proof.
  intro H. unfold torch.linear.
  now rewrite (proj2 (Nat.eqb_eq _ _) H).
Qed.

Lemma linear_shape_error {n m : nat} (l : torch.Linear n m) (x : list R) :
  length x <> n ->
  torch.linear l x = Raised (RuntimeError "mat1 and mat2 shapes cannot be multiplied").
Proof.
  intro H. unfold torch.linear.
  now rewrite (proj2 (Nat.eqb_neq _ _) H).
Qed.

Lemma hidden_length model x : length (hidden model x) = 128%nat.
Proof. unfold hidden. now rewrite !length_map, length_seq. Qed.

Lemma forward_ok model x :
  length x = 4%nat ->
  forward model x
  = Ok (torch.softmax [torch.affine (action_head model) (hidden model x) 0;
                       torch.affine (action_head model) (hidden model x) 1],
        [torch.affine (value_head model) (hidden model x) 0]).
Proof.
  intro H. unfold forward.
  rewrite (linear_ok (affine1 model) x H). cbn [bind].
  fold (hidden model x).
  rewrite (linear_ok (action_head model) _ (hidden_length model x)). cbn [bind].
  rewrite (linear_ok (value_head model) _ (hidden_length model x)). cbn [bind].
  reflexivity.
Qed.

Lemma forward_shape_error model x :
  length x <> 4%nat ->
  forward model x = Raised (RuntimeError "mat1 and mat2 shapes cannot be multiplied").
Proof.
  intro H. unfold forward. now rewrite (linear_shape_error (affine1 model) x H).
Qed.

Lemma Rsum_map_div (f : R -> R) z xs :
  Rsum (map (fun x => f x / z) xs) = Rsum (map f xs) / z.
Proof.
  induction xs as [|x xs IH]; simpl.
  - unfold Rdiv. ring.
  - rewrite IH. unfold Rdiv. ring.
Qed.

Lemma Rsum_exp_pos xs : xs <> [] -> 0 < Rsum (map exp xs).
Proof.
  intro H. destruct xs as [|x xs]; [contradiction|]. simpl.
  pose proof (exp_pos x).
  assert (0 <= Rsum (map exp xs)).
  { apply TensorFacts.Rsum_nonneg. intro y. left. apply exp_pos. }
  lra.
Qed.

Lemma softmax_sum xs : xs <> [] -> Rsum (torch.softmax xs) = 1.
Proof.
  intro H. unfold torch.softmax. rewrite Rsum_map_div.
  pose proof (Rsum_exp_pos xs H). field. lra.
Qed.

Lemma softmax_pos xs p : In p (torch.softmax xs) -> 0 < p.
Proof.
  unfold torch.softmax. intro Hin. apply in_map_iff in Hin.
  destruct Hin as (x & <- & Hx).
  apply Rdiv_lt_0_compat; [apply exp_pos|].
  apply Rsum_exp_pos. intro E. now rewrite E in Hx.
Qed.

Lemma softmax_length xs : length (torch.softmax xs) = length xs.
Proof. apply length_map. Qed.

Lemma Categorical_length probs : length (torch.Categorical probs) = length probs.
Proof. apply length_map. Qed.

Lemma sample_lt m : forall u, m <> [] -> (torch.sample m u < length m)%nat.
Proof.
  induction m as [|p m IH]; intros u H; [contradiction|].
  destruct m as [|q m]; [simpl; lia|].
  change (torch.sample (p :: q :: m) u)
    with (if Rlt_dec u p then 0%nat else S (torch.sample (q :: m) (u - p))).
  destruct (Rlt_dec u p); [simpl; lia|].
  assert (torch.sample (q :: m) (u - p) < length (q :: m))%nat
    by (apply IH; discriminate).
  simpl in *. lia.
Qed.

Lemma select_action_ok model x u :
  length x = 4%nat ->
  exists probs v,
    forward model x = Ok (probs, [v])
    /\ length probs = 2%nat
    /\ select_action model x u
       = Ok (torch.sample (torch.Categorical probs) u,
             append_saved_action model
               {| log_prob := torch.log_prob_of (torch.Categorical probs)
                                (torch.sample (torch.Categorical probs) u);
                  value := [v] |}).
Proof.
  intro H. eexists. eexists. split; [now apply forward_ok|]. split.
  - now rewrite softmax_length.
  - unfold select_action. rewrite (forward_ok model x H). reflexivity.
Qed.

(** An observation of the wrong shape fails fast: nothing is recorded. *)
Lemma select_action_shape_error model x u :
  length x <> 4%nat ->
  select_action model x u
  = Raised (RuntimeError "mat1 and mat2 shapes cannot be multiplied").
Proof.
  intro H. unfold select_action. now rewrite (forward_shape_error model x H).
Qed.

End NetworkFacts.

(** C5.  For every observation (a vector of the four entries the network
    takes), one call to [select_action] returns an action index and appends
    exactly one (log-probability, value) record to [saved_actions]; the
    rewards buffer is unchanged. *)
Theorem C5_select_action_appends_one :
  forall (model : Policy) (observation : list R) (u : R),
    length observation = 4%nat ->
    exists (action : nat) (record : SavedAction) (model' : Policy),
      select_action model observation u = Ok (action, model')
      /\ saved_actions model' = saved_actions model ++ [record]
      /\ length (saved_actions model') = S (length (saved_actions model))
      /\ rewards model' = rewards model.
Proof.
  intros model x u H.
  destruct (NetworkFacts.select_action_ok model x u H) as (probs & v & _ & _ & E).
  do 3 eexists. split; [exact E|].
  simpl. split; [reflexivity|]. split; [|reflexivity].
  rewrite length_app. simpl. lia.
Qed.

(** C10.  For every input vector of four entries [forward] returns two
    probabilities, each non-negative and summing to 1, together with a
    one-entry value estimate; the action [select_action] returns is 0 or 1. *)
Theorem C10_forward_distribution :
  forall (model : Policy) (x : list R),
    length x = 4%nat ->
    exists p0 p1 v,
      forward model x = Ok ([p0; p1], [v])
      /\ 0 <= p0 /\ 0 <= p1 /\ p0 + p1 = 1
      /\ forall u, exists action model',
           select_action model x u = Ok (action, model')
           /\ (action = 0 \/ action = 1)%nat.
Proof.
  intros model x H.
  pose proof (NetworkFacts.forward_ok model x H) as E.
  set (scores := [torch.affine (action_head model) (hidden model x) 0;
                  torch.affine (action_head model) (hidden model x) 1]) in *.
  assert (Hne : scores <> []) by discriminate.
  pose proof (NetworkFacts.softmax_sum scores Hne) as Hsum.
  pose proof (NetworkFacts.softmax_pos scores) as Hpos.
  remember (torch.softmax scores) as probs eqn:Hp.
  assert (Hlen : length probs = 2%nat)
    by (rewrite Hp, NetworkFacts.softmax_length; reflexivity).
  destruct probs as [|p0 [|p1 [|p2 probs]]]; try discriminate.
  exists p0, p1. eexists. split; [exact E|].
  assert (Hp0 : 0 < p0) by (apply Hpos; simpl; auto).
  assert (Hp1 : 0 < p1) by (apply Hpos; simpl; auto).
  simpl in Hsum.
  repeat split; try lra.
  intro u.
  destruct (NetworkFacts.select_action_ok model x u H) as (probs & v & E' & Hl & Hs).
  do 2 eexists. split; [exact Hs|].
  assert (Hlt : (torch.sample (torch.Categorical probs) u
                 < length (torch.Categorical probs))%nat).
  { apply NetworkFacts.sample_lt. intro E0.
    apply (f_equal (@length R)) in E0.
    rewrite NetworkFacts.Categorical_length, Hl in E0. discriminate. }
  rewrite NetworkFacts.Categorical_length, Hl in Hlt. lia.
Qed.

(** ** [finish_episode] *)

Section FinishEpisodeFacts.
Context {ext : Externals}.

Lemma item_ok (t : list R) : length t = 1%nat -> exists v, t = [v].
Proof.
  destruct t as [|v [|? ?]]; simpl; intro H; try discriminate. now exists v.
Qed.

Lemma loss_terms_length zipped pl vl :
  loss_terms zipped = Ok (pl, vl) ->
  length pl = length zipped /\ length vl = length zipped.
Proof.
  revert pl vl. induction zipped as [|[a r] rest IH]; intros pl vl H.
  - simpl in H. injection H as <- <-. now split.
  - simpl in H.
    destruct (torch.item (value a)) as [v|e]; [|discriminate]. cbn [bind] in H.
    destruct (loss_terms rest) as [[pl' vl']|e]; [|discriminate]. cbn [bind] in H.
    injection H as <- <-. destruct (IH pl' vl' eq_refl) as [E1 E2].
    simpl. now rewrite E1, E2.
Qed.

Lemma loss_terms_ok zipped :
  Forall (fun p => one_entry (fst p)) zipped ->
  exists pl vl, loss_terms zipped = Ok (pl, vl).
Proof.
  induction 1 as [|[a r] rest Ha _ (pl & vl & IH)].
  - now exists [], [].
  - simpl in Ha. destruct (item_ok _ Ha) as [v Hv].
    simpl. rewrite Hv. cbn [torch.item bind]. rewrite IH. cbn [bind].
    now do 2 eexists.
Qed.

Lemma loss_terms_raised zipped e :
  loss_terms zipped = Raised e ->
  exists p, In p zipped /\ ~ one_entry (fst p).
Proof.
  induction zipped as [|[a r] rest IH]; intro H; [discriminate|].
  simpl in H.
  destruct (torch.item (value a)) as [v|e'] eqn:Hi.
  - cbn [bind] in H.
    destruct (loss_terms rest) as [[pl vl]|e'']; [discriminate|].
    cbn [bind] in H.
    destruct (IH H) as (p & Hin & Hp). exists p. split; [now right|exact Hp].
  - exists (a, r). split; [now left|].
    unfold one_entry. simpl. intro Hl.
    destruct (item_ok _ Hl) as [v Hv]. rewrite Hv in Hi. discriminate.
Qed.

Lemma combine_nil {A B : Type} (l : list A) (l' : list B) :
  combine l l' = [] -> l = [] \/ l' = [].
Proof. destruct l, l'; simpl; auto. discriminate. Qed.

Lemma in_combine_fst {A B : Type} (l : list A) (l' : list B) p :
  In p (combine l l') -> In (fst p) l.
Proof. destruct p as [a b]. apply in_combine_l. Qed.

Lemma normalized_returns_nil gamma eps rs :
  normalized_returns gamma eps rs = [] -> rs = [].
Proof.
  intro H. apply length_zero_iff_nil.
  now rewrite <- (NormalizeFacts.normalized_returns_length gamma eps rs), H.
Qed.

(** What a call leaves behind, whichever way it ends. *)
Lemma finish_episode_cases model optimizer gamma eps :
  (exists optimizer' w,
      finish_episode model optimizer gamma eps
      = (clear_buffers model w, optimizer', None))
  \/ (exists e,
         finish_episode model optimizer gamma eps = (model, optimizer, Some e)
         /\ (saved_actions model = [] \/ rewards model = []
             \/ exists a, In a (saved_actions model) /\ ~ one_entry a)).
Proof.
  unfold finish_episode.
  set (zipped := combine (saved_actions model)
                   (normalized_returns gamma eps (rewards model))).
  destruct (loss_terms zipped) as [[pl vl]|e] eqn:Hl.
  - destruct (loss_terms_length _ _ _ Hl) as [Hpl Hvl].
    cbn [bind fst snd].
    destruct zipped as [|p zipped'] eqn:Hz.
    + right. destruct pl; [|discriminate]. cbn [torch.stack bind].
      eexists. split; [reflexivity|].
      destruct (combine_nil _ _ Hz) as [H|H]; [now left|].
      right. left. now apply normalized_returns_nil in H.
    + left. destruct pl as [|x pl]; [discriminate|].
      destruct vl as [|y vl]; [discriminate|].
      cbn [torch.stack bind].
      destruct (backward_step optimizer (parameters model) _) as [o w].
      now exists o, w.
  - right. cbn [bind]. eexists. split; [reflexivity|].
    right. right.
    destruct (loss_terms_raised _ _ Hl) as (p & Hin & Hp).
    exists (fst p). split; [|exact Hp].
    now apply in_combine_fst in Hin.
Qed.

Lemma clear_buffers_empty model w :
  saved_actions (clear_buffers model w) = [] /\ rewards (clear_buffers model w) = [].
Proof. destruct w as [[a h] v]. now split. Qed.

(** A call on an episode of at least one step, recorded by [select_action],
    returns normally. *)
Lemma finish_episode_returns model optimizer gamma eps :
  saved_actions model <> [] -> rewards model <> [] ->
  Forall one_entry (saved_actions model) ->
  exists optimizer' w,
    finish_episode model optimizer gamma eps
    = (clear_buffers model w, optimizer', None).
Proof.
  intros Hs Hr Hone.
  destruct (finish_episode_cases model optimizer gamma eps)
    as [H|(e & _ & [H|[H|(a & Hin & Ha)]])]; try contradiction; [exact H|].
  exfalso. apply Ha. rewrite Forall_forall in Hone. now apply Hone.
Qed.

End FinishEpisodeFacts.

(** C4.  After a call to [finish_episode] that carries out its update step,
    both per-episode buffers have length 0, whatever they held before; and
    the call does carry out the update whenever both buffers are non-empty
    and hold what [select_action] records. *)
Theorem C4_finish_episode_clears_buffers :
  forall (ext : Externals) (model : Policy) (optimizer : Optimizer) (gamma eps : R),
    (forall model' optimizer',
        finish_episode model optimizer gamma eps = (model', optimizer', None) ->
        length (rewards model') = 0%nat /\ length (saved_actions model') = 0%nat)
    /\ (saved_actions model <> [] -> rewards model <> [] ->
        Forall one_entry (saved_actions model) ->
        exists model' optimizer',
          finish_episode model optimizer gamma eps = (model', optimizer', None)).
Proof.
  intros ext model optimizer gamma eps. split.
  - intros model' optimizer' H.
    destruct (finish_episode_cases model optimizer gamma eps)
      as [(o & w & E)|(e & E & _)]; rewrite E in H; [|discriminate].
    injection H as <- _.
    destruct (clear_buffers_empty model w) as [-> ->]. now split.
  - intros Hs Hr Hone.
    destruct (finish_episode_returns model optimizer gamma eps Hs Hr Hone)
      as (o & w & E).
    now exists (clear_buffers model w), o.
Qed.

(** ** The callbacks and the training loop *)

Section EngineFacts.
Context {ext : Externals}.
Variables (args : Args) (eps : R).

Lemma run_single_timestep_inv w t w' :
  run_single_timestep args w t = Ok w' ->
  exists obs record reward done,
    observation (state w) = Some obs /\ length obs = 4%nat
    /\ one_entry record
    /\ saved_actions (model w') = saved_actions (model w) ++ [record]
    /\ rewards (model w') = rewards (model w) ++ [reward]
    /\ should_terminate w' = should_terminate w
    /\ should_terminate_single_epoch w' = (done || should_terminate_single_epoch w)%bool
    /\ running_reward (state w') = running_reward (state w)
    /\ epoch (state w') = epoch (state w)
    /\ timestep (state w') = (if done then Some t else timestep (state w))
    /\ stdout w' = stdout w.
Proof.
  unfold run_single_timestep.
  destruct (observation (state w)) as [obs|] eqn:Hobs; [|discriminate].
  cbn [getattr bind].
  destruct (uniform (rng w)) as [u rng'].
  destruct (Nat.eq_dec (length obs) 4) as [Hlen|Hlen].
  - destruct (NetworkFacts.select_action_ok (model w) obs u Hlen)
      as (probs & v & _ & _ & Hs).
    rewrite Hs. cbn [bind].
    destruct (env_step (env w) _) as [env' [[obs' reward] done]].
    intro H. exists obs. eexists. exists reward, done.
    destruct done; injection H as <-; cbn;
      (repeat split; try reflexivity; assumption).
  - rewrite (NetworkFacts.select_action_shape_error (model w) obs u Hlen).
    discriminate.
Qed.

Lemma run_once_on_dataset_inv data : forall w w1,
  run_once_on_dataset (trainer args eps) data w = Ok w1 ->
  should_terminate_single_epoch w = false ->
  exists k,
    (k <= length data)%nat /\ (data <> [] -> 1 <= k)%nat
    /\ length (rewards (model w1)) = (length (rewards (model w)) + k)%nat
    /\ length (saved_actions (model w1)) = (length (saved_actions (model w)) + k)%nat
    /\ (Forall one_entry (saved_actions (model w)) ->
        Forall one_entry (saved_actions (model w1)))
    /\ should_terminate w1 = should_terminate w
    /\ should_terminate_single_epoch w1 = false
    /\ running_reward (state w1) = running_reward (state w)
    /\ epoch (state w1) = epoch (state w)
    /\ stdout w1 = stdout w.
Proof.
  induction data as [|t data IH]; intros w w1 H Hflag.
  - simpl in H. injection H as <-. exists 0%nat.
    repeat split; auto; try lia. intro E. now elim E.
  - simpl in H.
    destruct (run_single_timestep args w t) as [w'|e] eqn:Hstep; [|discriminate].
    cbn [bind] in H.
    destruct (run_single_timestep_inv w t w' Hstep)
      as (obs & record & reward & done & _ & _ & Hone & Hsa & Hr & Hterm
          & Hsingle & Hrr & Hep & _ & Hout).
    destruct (should_terminate_single_epoch w') eqn:Hs'.
    + injection H as <-. exists 1%nat. cbn.
      rewrite Hsa, Hr, !length_app. cbn.
      repeat split; auto; try lia.
      intro HF. apply Forall_app. split; [exact HF|]. now constructor.
    + destruct (IH w' w1 H Hs')
        as (k & Hk & _ & Hr1 & Hsa1 & Hone1 & Hterm1 & Hsingle1 & Hrr1 & Hep1 & Hout1).
      exists (S k). rewrite Hr1, Hsa1, Hsa, Hr, !length_app. cbn.
      repeat split; try lia; try congruence.
      intro HF. apply Hone1. rewrite Hsa. apply Forall_app.
      split; [exact HF|]. now constructor.
Qed.

(** The step callback and the environment. *)
Lemma run_single_timestep_env w t w' :
  run_single_timestep args w t = Ok w' ->
  exists action,
    env w' = env_after args (env w) action
    /\ should_terminate_single_epoch w'
       = (step_done (env w) action || should_terminate_single_epoch w)%bool
    /\ timestep (state w')
       = (if step_done (env w) action then Some t else timestep (state w))
    /\ length (rewards (model w')) = S (length (rewards (model w))).
Proof.
  unfold run_single_timestep.
  destruct (observation (state w)) as [obs|] eqn:Hobs; [|discriminate].
  cbn [getattr bind].
  destruct (uniform (rng w)) as [u rng'].
  destruct (Nat.eq_dec (length obs) 4) as [Hlen|Hlen].
  - destruct (NetworkFacts.select_action_ok (model w) obs u Hlen)
      as (probs & v & _ & _ & Hs).
    rewrite Hs. cbn [bind]. intro H.
    exists (torch.sample (torch.Categorical probs) u).
    unfold env_after, step_done.
    destruct (env_step (env w) (torch.sample (torch.Categorical probs) u))
      as [env' [[obs' reward] done]].
    destruct done; injection H as <-; cbn; rewrite length_app; cbn;
      (repeat split; try reflexivity; lia).
  - rewrite (NetworkFacts.select_action_shape_error (model w) obs u Hlen).
    discriminate.
Qed.

(** An episode over the step indices [s, s+1, ...] that the environment ends
    within the steps available: the index recorded is that of the last step
    run, and the episode has one reward per step up to it. *)
Lemma run_once_on_dataset_last_index n : forall s horizon w w1,
  run_once_on_dataset (trainer args eps) (seq s n) w = Ok w1 ->
  should_terminate_single_epoch w = false ->
  ends_within args horizon (env w) -> (horizon <= n)%nat ->
  exists k,
    (k < n)%nat
    /\ timestep (state w1) = Some (s + k)%nat
    /\ length (rewards (model w1)) = (length (rewards (model w)) + S k)%nat.
Proof.
  induction n as [|n IH]; intros s horizon w w1 H Hflag Hends Hh.
  - destruct horizon; [contradiction|lia].
  - destruct horizon as [|horizon]; [contradiction|].
    simpl in H.
    destruct (run_single_timestep args w s) as [w'|e] eqn:Hstep; [|discriminate].
    cbn [bind] in H.
    destruct (run_single_timestep_env w s w' Hstep)
      as (action & Henv & Hsingle & Ht & Hr).
    rewrite Hflag in Hsingle.
    destruct (step_done (env w) action) eqn:Hdone.
    + rewrite Hsingle in H. cbn in H. injection H as <-. exists 0%nat.
      cbn. rewrite Ht, Hr. repeat split; try lia. f_equal. lia.
    + rewrite Hsingle in H. cbn in H.
      destruct (Hends action) as [Hd|Hlater]; [congruence|].
      rewrite <- Henv in Hlater.
      destruct (IH (S s) horizon w' w1 H Hsingle Hlater ltac:(lia))
        as (k & Hk & Htk & Hrk).
      exists (S k). rewrite Htk, Hrk, Hr. repeat split; try lia. f_equal. lia.
Qed.

Lemma update_model_inv w w' :
  update_model args eps w = Ok w' ->
  exists t rr,
    timestep (state w) = Some t /\ running_reward (state w) = Some rr
    /\ running_reward (state w') = Some (rr * 0.99 + INR t * 0.01)
    /\ timestep (state w') = Some t
    /\ epoch (state w') = epoch (state w)
    /\ buffers_empty w'
    /\ env w' = env w
    /\ should_terminate w' = should_terminate w
    /\ should_terminate_single_epoch w' = should_terminate_single_epoch w.
Proof.
  unfold update_model.
  destruct (timestep (state w)) as [t|] eqn:Ht; [|discriminate].
  destruct (running_reward (state w)) as [rr|] eqn:Hrr; [|discriminate].
  cbn [getattr bind].
  destruct (finish_episode_cases (model w) (optimizer w) (gamma args) eps)
    as [(o & wt & E)|(e & E & _)]; rewrite E; [|discriminate].
  intro H. injection H as <-. exists t, rr. cbn.
  repeat split; auto; apply clear_buffers_empty.
Qed.

Lemma log_episode_inv n w w' :
  every n log_episode w = Ok w' ->
  model w' = model w /\ state w' = state w /\ env w' = env w
  /\ should_terminate w' = should_terminate w
  /\ should_terminate_single_epoch w' = should_terminate_single_epoch w.
Proof.
  unfold every, log_episode.
  destruct (epoch (state w) mod n =? 0)%nat.
  - destruct (timestep (state w)); [|discriminate].
    destruct (running_reward (state w)); [|discriminate].
    cbn [getattr bind]. intro H. injection H as <-. now repeat split.
  - intro H. injection H as <-. now repeat split.
Qed.

Lemma should_finish_training_inv w w' :
  should_finish_training w = Ok w' ->
  model w' = model w /\ state w' = state w /\ env w' = env w
  /\ should_terminate_single_epoch w' = should_terminate_single_epoch w
  /\ ((exceeds_threshold w /\ should_terminate w' = true)
      \/ (~ exceeds_threshold w /\ should_terminate w' = should_terminate w)).
Proof.
  unfold should_finish_training, exceeds_threshold.
  destruct (running_reward (state w)) as [rr|] eqn:Hrr; [|discriminate].
  cbn [getattr bind].
  destruct (Rgt_dec rr (reward_threshold (env w))) as [Hgt|Hle].
  - destruct (timestep (state w)); [|discriminate]. cbn [getattr bind].
    intro H. injection H as <-. cbn. repeat split; auto.
    left. split; [now exists rr|reflexivity].
  - intro H. injection H as <-. repeat split; auto.
    right. split; [|reflexivity].
    intros (rr' & E & Hgt). injection E as <-. contradiction.
Qed.

(** One episode, from the loop head to the next. *)
Lemma run_epoch_inv data w w' :
  run_epoch (trainer args eps) data w = Ok w' ->
  should_terminate_single_epoch w = false ->
  exists ws w1 t rr,
    fire (on_epoch_started (trainer args eps)) (begin_epoch w) = Ok ws
    /\ run_once_on_dataset (trainer args eps) data ws = Ok w1
    /\ model ws = model w
    /\ running_reward (state w) = Some rr
    /\ timestep (state w1) = Some t
    /\ running_reward (state w') = Some (rr * 0.99 + INR t * 0.01)
    /\ epoch (state w') = S (epoch (state w))
    /\ buffers_empty w'
    /\ should_terminate_single_epoch w' = false
    /\ ((exceeds_threshold w' /\ should_terminate w' = true)
        \/ (~ exceeds_threshold w' /\ should_terminate w' = should_terminate w)).
Proof.
  unfold run_epoch. cbn [trainer on_epoch_started on_epoch_completed fire].
  unfold reset_environment_state at 1.
  destruct (env_reset (env (begin_epoch w))) as [env' obs] eqn:Hreset.
  cbn [bind]. intros H Hflag.
  match type of H with
  | (x <- run_once_on_dataset _ _ ?ws ;; _) = _ =>
      set (ws0 := ws) in *;
      destruct (run_once_on_dataset (trainer args eps) data ws0) as [w1|e] eqn:Hrun;
      [|discriminate]
  end.
  cbn [bind] in H.
  destruct (update_model args eps w1) as [w2|e] eqn:Hup; [|discriminate].
  cbn [bind] in H.
  destruct (every (log_interval args) log_episode w2) as [w3|e] eqn:Hlog;
    [|discriminate].
  cbn [bind] in H.
  destruct (should_finish_training w3) as [w4|e] eqn:Hfin; [|discriminate].
  cbn [bind] in H. injection H as <-.
  destruct (run_once_on_dataset_inv data ws0 w1 Hrun Hflag)
    as (k & _ & _ & _ & _ & _ & Hterm1 & Hsingle1 & Hrr1 & Hep1 & _).
  destruct (update_model_inv w1 w2 Hup)
    as (t & rr & Ht & Hrr & Hrr2 & Ht2 & Hep2 & Hempty & Henv2 & Hterm2 & Hsingle2).
  destruct (log_episode_inv _ w2 w3 Hlog) as (Hm3 & Hst3 & Henv3 & Hterm3 & Hsingle3).
  destruct (should_finish_training_inv w3 w4 Hfin)
    as (Hm4 & Hst4 & Henv4 & Hsingle4 & Hcause).
  exists ws0, w1, t, rr.
  split.
  { cbn [trainer on_epoch_started fire]. unfold reset_environment_state.
    rewrite Hreset. reflexivity. }
  split; [exact Hrun|]. split; [reflexivity|].
  split; [rewrite <- Hrr, Hrr1; reflexivity|].
  split; [exact Ht|].
  split; [now rewrite Hst4, Hst3|].
  split; [now rewrite Hst4, Hst3, Hep2, Hep1|].
  split; [unfold buffers_empty in *; now rewrite Hm4, Hm3|].
  split; [congruence|].
  assert (Hex : exceeds_threshold w4 <-> exceeds_threshold w3).
  { unfold exceeds_threshold. now rewrite Hst4, Henv4. }
  destruct Hcause as [[Hx Hf]|[Hx Hf]].
  - left. split; [now apply Hex|exact Hf].
  - right. split; [now rewrite Hex|]. rewrite Hf, Hterm3, Hterm2, Hterm1.
    reflexivity.
Qed.

(** What one episode records: the step index and the running reward. *)
Lemma run_epoch_record data w w' rr :
  run_epoch (trainer args eps) data w = Ok w' ->
  should_terminate_single_epoch w = false ->
  running_reward (state w) = Some rr ->
  exists ws w1 t,
    fire (on_epoch_started (trainer args eps)) (begin_epoch w) = Ok ws
    /\ run_once_on_dataset (trainer args eps) data ws = Ok w1
    /\ env ws = fst (env_reset (env w))
    /\ model ws = model w
    /\ should_terminate_single_epoch ws = false
    /\ timestep (state w1) = Some t
    /\ timestep (state w') = Some t
    /\ running_reward (state w') = Some (rr * 0.99 + INR t * 0.01).
Proof.
  intros H Hflag Hrr. unfold run_epoch in H.
  cbn [trainer on_epoch_started on_epoch_completed fire] in H.
  unfold reset_environment_state at 1 in H.
  destruct (env_reset (env (begin_epoch w))) as [env' obs] eqn:Hreset.
  cbn [bind] in H.
  match type of H with
  | (x <- run_once_on_dataset _ _ ?ws ;; _) = _ =>
      set (ws0 := ws) in *;
      destruct (run_once_on_dataset (trainer args eps) data ws0) as [w1|e] eqn:Hrun;
      [|discriminate]
  end.
  cbn [bind] in H.
  destruct (update_model args eps w1) as [w2|e2] eqn:Hup; [|discriminate].
  cbn [bind] in H.
  destruct (every (log_interval args) log_episode w2) as [w3|e3] eqn:Hlog;
    [|discriminate].
  cbn [bind] in H.
  destruct (should_finish_training w3) as [w4|e4] eqn:Hfin; [|discriminate].
  cbn [bind] in H. injection H as <-.
  destruct (run_once_on_dataset_inv data ws0 w1 Hrun Hflag)
    as (k & _ & _ & _ & _ & _ & _ & _ & Hrr1 & _).
  destruct (update_model_inv w1 w2 Hup) as (t & rr' & Ht & Hrr' & E & Ht2 & _).
  destruct (log_episode_inv _ w2 w3 Hlog) as (_ & Hst3 & _).
  destruct (should_finish_training_inv w3 w4 Hfin) as (_ & Hst4 & _).
  cbn in Hrr1. rewrite Hrr1, Hrr in Hrr'. injection Hrr' as <-.
  exists ws0, w1, t.
  split.
  { cbn [trainer on_epoch_started fire]. unfold reset_environment_state.
    rewrite Hreset. reflexivity. }
  split; [exact Hrun|].
  split; [cbn in Hreset; cbn; now rewrite Hreset|].
  split; [reflexivity|]. split; [exact Hflag|]. split; [exact Ht|].
  rewrite Hst4, Hst3. now split.
Qed.

End EngineFacts.

Section TrainingFacts.
Context {ext : Externals}.
Variables (args : Args) (eps : R) (data : list nat).

Let tr : Trainer := trainer args eps.

Lemma internal_run_stopped n w :
  should_terminate w = true -> internal_run tr data n w = Ok w.
Proof. intro H. destruct n; simpl; [reflexivity|now rewrite H]. Qed.

Lemma internal_run_continues n w :
  should_terminate w = false ->
  internal_run tr data (S n) w = (w' <- run_epoch tr data w ;; internal_run tr data n w').
Proof. intro H. simpl. now rewrite H. Qed.

(** Every loop head of a run that starts with empty buffers has empty
    buffers, and the episode-ended signal is down. *)
Lemma loop_head_invariant w0 w :
  buffers_empty w0 -> should_terminate_single_epoch w0 = false ->
  loop_head tr data w0 w ->
  buffers_empty w /\ should_terminate_single_epoch w = false.
Proof.
  intros Hem Hflag Hl. induction Hl as [|w w' _ [_ IHf] _ Hrun]; [now split|].
  destruct (run_epoch_inv args eps data w w' Hrun IHf)
    as (? & ? & ? & ? & _ & _ & _ & _ & _ & _ & _ & Hb & Hs & _).
  now split.
Qed.

Lemma episode_boundary_paired w0 w1 :
  buffers_empty w0 -> should_terminate_single_epoch w0 = false ->
  episode_boundary tr data w0 w1 ->
  length (rewards (model w1)) = length (saved_actions (model w1)).
Proof.
  intros Hem Hflag (w & ws & Hl & _ & Hstart & Hrun).
  destruct (loop_head_invariant w0 w Hem Hflag Hl) as [[Hr Hs] Hf].
  subst tr. cbn [trainer on_epoch_started fire] in Hstart.
  unfold reset_environment_state in Hstart.
  destruct (env_reset (env (begin_epoch w))) as [env' obs].
  cbn [bind] in Hstart. injection Hstart as <-.
  apply run_once_on_dataset_inv in Hrun; [|exact Hf].
  destruct Hrun as (k & _ & _ & Hr1 & Hs1 & _).
  cbn in Hr1, Hs1. rewrite Hr1, Hs1, Hr, Hs. reflexivity.
Qed.

(** Normal termination, read off the loop. *)
Lemma internal_run_stops n : forall w w',
  should_terminate w = false ->
  should_terminate_single_epoch w = false ->
  internal_run tr data n w = Ok w' ->
  exists k,
    (k <= n)%nat
    /\ iter_epoch tr data k w = Ok w'
    /\ epoch (state w') = (epoch (state w) + k)%nat
    /\ (k = n \/ (0 < k)%nat /\ exceeds_threshold w' /\ should_terminate w' = true)
    /\ forall j wj, (0 < j < k)%nat -> iter_epoch tr data j w = Ok wj ->
         ~ exceeds_threshold wj /\ should_terminate wj = false.
Proof.
  induction n as [|n IH]; intros w w' Hterm Hflag H.
  - simpl in H. injection H as <-. exists 0%nat.
    repeat split; auto; try lia.
  - rewrite (internal_run_continues n w Hterm) in H.
    destruct (run_epoch tr data w) as [w1|e] eqn:Hrun; [|discriminate].
    cbn [bind] in H.
    destruct (run_epoch_inv args eps data w w1 Hrun Hflag)
      as (? & ? & ? & ? & _ & _ & _ & _ & _ & _ & Hep & _ & Hs1 & Hcause).
    destruct Hcause as [[Hx Hf]|[Hx Hf]].
    + rewrite (internal_run_stopped n w1 Hf) in H. injection H as <-.
      exists 1%nat. simpl. rewrite Hrun. cbn [bind].
      repeat split; auto; try lia.
    + rewrite Hterm in Hf.
      destruct (IH w1 w' Hf Hs1 H) as (k & Hk & Hiter & Hepk & Hwhy & Hbefore).
      exists (S k). simpl. rewrite Hrun. cbn [bind].
      split; [lia|]. split; [exact Hiter|]. split; [lia|]. split.
      * destruct Hwhy as [->|(_ & Hx' & Hf')]; [now left|].
        right. repeat split; auto. lia.
      * intros j wj Hj Hjw. destruct j as [|j]; [lia|].
        simpl in Hjw. rewrite Hrun in Hjw. cbn [bind] in Hjw.
        destruct j as [|j].
        -- simpl in Hjw. injection Hjw as <-. now split.
        -- apply (Hbefore (S j) wj); [lia|exact Hjw].
Qed.

(** And conversely: the loop ends after the first episode whose completion
    finds the threshold exceeded, or at the cap. *)
Lemma internal_run_stops_at k : forall n w wk,
  should_terminate w = false ->
  should_terminate_single_epoch w = false ->
  (k <= n)%nat ->
  iter_epoch tr data k w = Ok wk ->
  (forall j wj, (0 < j < k)%nat -> iter_epoch tr data j w = Ok wj ->
     ~ exceeds_threshold wj) ->
  (k = n \/ (0 < k)%nat /\ exceeds_threshold wk) ->
  internal_run tr data n w = Ok wk.
Proof.
  induction k as [|k IH]; intros n w wk Hterm Hflag Hk Hiter Hbefore Hwhy.
  - simpl in Hiter. injection Hiter as <-.
    destruct Hwhy as [<-|[Hlt _]]; [reflexivity|lia].
  - destruct n as [|n]; [lia|].
    rewrite (internal_run_continues n w Hterm).
    simpl in Hiter.
    destruct (run_epoch tr data w) as [w1|e] eqn:Hrun; [|discriminate].
    cbn [bind] in *.
    destruct (run_epoch_inv args eps data w w1 Hrun Hflag)
      as (? & ? & ? & ? & _ & _ & _ & _ & _ & _ & _ & _ & Hs1 & Hcause).
    destruct k as [|k].
    + simpl in Hiter. injection Hiter as <-.
      destruct Hwhy as [E|(_ & Hx)].
      * injection E as <-. reflexivity.
      * destruct Hcause as [[_ Hf]|[Hn _]]; [|contradiction].
        now apply internal_run_stopped.
    + assert (Hn1 : ~ exceeds_threshold w1).
      { apply (Hbefore 1%nat w1); [lia|]. simpl. now rewrite Hrun. }
      destruct Hcause as [[Hx _]|[_ Hf]]; [contradiction|].
      rewrite Hterm in Hf.
      apply IH; auto; try lia.
      * intros j wj Hj Hjw. apply (Hbefore (S j) wj); [lia|].
        simpl. now rewrite Hrun.
      * destruct Hwhy as [E|(_ & Hx)]; [left; lia|right; split; [lia|exact Hx]].
Qed.

End TrainingFacts.

(** ** Where exceptions come from *)

Section ExceptionFacts.
Context {ext : Externals}.
Variables (args : Args) (eps : R).

Lemma loss_terms_raises zipped e :
  loss_terms zipped = Raised e -> raised_by_library e.
Proof.
  induction zipped as [|[a r] rest IH]; intro H; [discriminate|].
  simpl in H. destruct (value a) as [|v [|v' t]]; cbn [torch.item bind] in H.
  - injection H as <-. right. right. now left.
  - destruct (loss_terms rest) as [acc|e']; [discriminate|].
    cbn [bind] in H. apply IH. exact H.
  - injection H as <-. right. right. now left.
Qed.

Lemma stack_raises ts e : torch.stack ts = Raised e -> raised_by_library e.
Proof.
  destruct ts; [|discriminate]. intro H. injection H as <-. right. now left.
Qed.

Lemma finish_episode_raises model optimizer gamma e model' optimizer' :
  finish_episode model optimizer gamma eps = (model', optimizer', Some e) ->
  raised_by_library e.
Proof.
  unfold finish_episode.
  destruct (loss_terms _) as [[pl vl]|e1] eqn:Hl; cbn [bind fst snd].
  - destruct (torch.stack pl) as [pl'|e2] eqn:Hp; cbn [bind].
    + destruct (torch.stack vl) as [vl'|e3] eqn:Hv; cbn [bind].
      * destruct (backward_step _ _ _). discriminate.
      * intro H. injection H as _ _ <-. now apply (stack_raises vl).
    + intro H. injection H as _ _ <-. now apply (stack_raises pl).
  - intro H. injection H as _ _ <-. now apply (loss_terms_raises _ _ Hl).
Qed.

Lemma getattr_raises {A : Type} name (o : option A) e :
  getattr name o = Raised e -> raised_by_library e.
Proof.
  destruct o; [discriminate|]. intro H. injection H as <-.
  right. right. right. now exists name.
Qed.

Lemma run_single_timestep_raises w t e :
  run_single_timestep args w t = Raised e -> raised_by_library e.
Proof.
  unfold run_single_timestep.
  destruct (getattr "observation" (observation (state w))) as [obs|e'] eqn:Hg.
  - cbn [bind]. destruct (uniform (rng w)) as [u rng'].
    destruct (Nat.eq_dec (length obs) 4) as [Hlen|Hlen].
    + destruct (NetworkFacts.select_action_ok (model w) obs u Hlen)
        as (probs & v & _ & _ & Hs).
      rewrite Hs. cbn [bind].
      destruct (env_step (env w) _) as [env' [[obs' reward] done]].
      destruct done; discriminate.
    + rewrite (NetworkFacts.select_action_shape_error (model w) obs u Hlen).
      cbn [bind]. intro H. injection H as <-. now left.
  - cbn [bind]. intro H. injection H as <-. now apply (getattr_raises _ _ _ Hg).
Qed.

Lemma run_once_on_dataset_raises data : forall w e,
  run_once_on_dataset (trainer args eps) data w = Raised e -> raised_by_library e.
Proof.
  induction data as [|t data IH]; intros w e H; [discriminate|].
  simpl in H.
  destruct (run_single_timestep args w t) as [w'|e'] eqn:Hstep; cbn [bind] in H.
  - destruct (should_terminate_single_epoch w'); [discriminate|].
    now apply (IH w').
  - injection H as <-. now apply (run_single_timestep_raises w t).
Qed.

Lemma update_model_raises w e :
  update_model args eps w = Raised e -> raised_by_library e.
Proof.
  unfold update_model.
  destruct (getattr "timestep" (timestep (state w))) as [t|e1] eqn:Ht;
    cbn [bind]; [|intro H; injection H as <-; now apply (getattr_raises _ _ _ Ht)].
  destruct (getattr "running_reward" (running_reward (state w))) as [rr|e2] eqn:Hr;
    cbn [bind]; [|intro H; injection H as <-; now apply (getattr_raises _ _ _ Hr)].
  destruct (finish_episode (model w) (optimizer w) (gamma args) eps)
    as [[m o] [e3|]] eqn:Hf; [|discriminate].
  intro H. injection H as <-. now apply (finish_episode_raises _ _ _ _ _ _ Hf).
Qed.

Lemma log_episode_raises n w e :
  every n log_episode w = Raised e -> raised_by_library e.
Proof.
  unfold every, log_episode.
  destruct (epoch (state w) mod n =? 0)%nat; [|discriminate].
  destruct (getattr "timestep" (timestep (state w))) as [t|e1] eqn:Ht;
    cbn [bind]; [|intro H; injection H as <-; now apply (getattr_raises _ _ _ Ht)].
  destruct (getattr "running_reward" (running_reward (state w))) as [rr|e2] eqn:Hr;
    cbn [bind]; [|intro H; injection H as <-; now apply (getattr_raises _ _ _ Hr)].
  discriminate.
Qed.

Lemma should_finish_training_raises w e :
  should_finish_training w = Raised e -> raised_by_library e.
Proof.
  unfold should_finish_training.
  destruct (getattr "running_reward" (running_reward (state w))) as [rr|e2] eqn:Hr;
    cbn [bind]; [|intro H; injection H as <-; now apply (getattr_raises _ _ _ Hr)].
  destruct (Rgt_dec rr (reward_threshold (env w))); [|discriminate].
  destruct (getattr "timestep" (timestep (state w))) as [t|e1] eqn:Ht;
    cbn [bind]; [|intro H; injection H as <-; now apply (getattr_raises _ _ _ Ht)].
  discriminate.
Qed.

Lemma run_epoch_raises data w e :
  run_epoch (trainer args eps) data w = Raised e -> raised_by_library e.
Proof.
  unfold run_epoch. cbn [trainer on_epoch_started on_epoch_completed fire].
  unfold reset_environment_state at 1.
  destruct (env_reset (env (begin_epoch w))) as [env' obs]. cbn [bind].
  destruct (run_once_on_dataset _ data _) as [w1|e1] eqn:Hrun; cbn [bind];
    [|intro H; injection H as <-; now apply (run_once_on_dataset_raises _ _ _ Hrun)].
  destruct (update_model args eps w1) as [w2|e2] eqn:Hup; cbn [bind];
    [|intro H; injection H as <-; now apply (update_model_raises _ _ Hup)].
  destruct (every (log_interval args) log_episode w2) as [w3|e3] eqn:Hlog; cbn [bind];
    [|intro H; injection H as <-; now apply (log_episode_raises _ _ _ Hlog)].
  destruct (should_finish_training w3) as [w4|e4] eqn:Hfin; cbn [bind];
    [discriminate|].
  intro H. injection H as <-. now apply (should_finish_training_raises _ _ Hfin).
Qed.

Lemma internal_run_raises data n : forall w e,
  internal_run (trainer args eps) data n w = Raised e -> raised_by_library e.
Proof.
  induction n as [|n IH]; intros w e H; [discriminate|].
  simpl in H. destruct (should_terminate w); [discriminate|].
  destruct (run_epoch (trainer args eps) data w) as [w1|e1] eqn:Hrun; cbn [bind] in H.
  - now apply (IH w1).
  - injection H as <-. now apply (run_epoch_raises _ _ _ Hrun).
Qed.

End ExceptionFacts.

Lemma main_raises {ext : Externals} env0 args rng0 e :
  main env0 args rng0 = Raised e -> raised_by_library e.
Proof.
  unfold main. destruct (init_weights rng0) as [w rng1].
  unfold Engine_run. cbn [trainer on_started fire initialize bind].
  apply internal_run_raises.
Qed.

Lemma install_message_not_library :
  ~ raised_by_library (RuntimeError "Please install opengym: pip install gym").
Proof.
  intros [H|[H|[H|[name H]]]]; discriminate.
Qed.

(** C6.  Each run of the per-step callback appends exactly one saved action
    and exactly one reward; in a training run that starts with both buffers
    empty (as [Policy()] creates them) both are empty at the start of every
    episode, and at every episode boundary the two buffers have the same
    length. *)
Theorem C6_buffers_paired_by_timestep :
  forall (ext : Externals) (args : Args) (eps : R) (data : list nat),
    (forall w t w',
        run_single_timestep args w t = Ok w' ->
        length (saved_actions (model w')) = S (length (saved_actions (model w)))
        /\ length (rewards (model w')) = S (length (rewards (model w))))
    /\ (forall w0,
           buffers_empty w0 -> should_terminate_single_epoch w0 = false ->
           (forall w, loop_head (trainer args eps) data w0 w -> buffers_empty w)
           /\ (forall w1, episode_boundary (trainer args eps) data w0 w1 ->
                 length (rewards (model w1)) = length (saved_actions (model w1)))).
Proof.
  intros ext args eps data. split.
  - intros w t w' H.
    destruct (run_single_timestep_inv args w t w' H)
      as (obs & record & reward & done & _ & _ & _ & Hs & Hr & _).
    rewrite Hs, Hr, !length_app. simpl. lia.
  - intros w0 Hem Hflag. split.
    + intros w Hl. now apply (loop_head_invariant args eps data w0 w Hem Hflag).
    + intros w1 Hb. now apply (episode_boundary_paired args eps data w0 w1).
Qed.

(** C7.  The running reward is set to 10 when training starts, and each
    completed episode replaces it by 0.99 times its previous value plus 0.01
    times [t], the step index the step callback recorded when the episode
    ended: the index of the episode's last step. *)
Theorem C7_running_reward_smoothing :
  forall (ext : Externals) (args : Args) (eps : R),
    (forall data n w,
        Engine_run (trainer args eps) data n w
        = internal_run (trainer args eps) data n
            (with_state w (set_running_reward (state w) 10)))
    /\ (forall w w' t rr,
           timestep (state w) = Some t -> running_reward (state w) = Some rr ->
           update_model args eps w = Ok w' ->
           running_reward (state w') = Some (0.99 * rr + 0.01 * INR t))
    /\ (forall w t w',
           run_single_timestep args w t = Ok w' ->
           should_terminate_single_epoch w = false ->
           should_terminate_single_epoch w' = true ->
           timestep (state w') = Some t)
    /\ (forall data w w' rr,
           should_terminate_single_epoch w = false ->
           running_reward (state w) = Some rr ->
           run_epoch (trainer args eps) data w = Ok w' ->
           exists t,
             timestep (state w') = Some t
             /\ running_reward (state w') = Some (0.99 * rr + 0.01 * INR t))
    /\ (forall steps horizon w w' rr,
           should_terminate_single_epoch w = false ->
           running_reward (state w) = Some rr ->
           buffers_empty w ->
           ends_within args horizon (fst (env_reset (env w))) ->
           (horizon <= steps)%nat ->
           run_epoch (trainer args eps) (seq 0 steps) w = Ok w' ->
           exists t ws w1,
             fire (on_epoch_started (trainer args eps)) (begin_epoch w) = Ok ws
             /\ run_once_on_dataset (trainer args eps) (seq 0 steps) ws = Ok w1
             /\ length (rewards (model w1)) = S t
             /\ timestep (state w') = Some t
             /\ running_reward (state w') = Some (0.99 * rr + 0.01 * INR t)).
Proof.
  intros ext args eps. split; [reflexivity|]. split; [|split; [|split]].
  - intros w w' t rr Ht Hrr H.
    destruct (update_model_inv args eps w w' H) as (t' & rr' & Ht' & Hrr' & E & _).
    rewrite Ht in Ht'. rewrite Hrr in Hrr'.
    injection Ht' as <-. injection Hrr' as <-.
    rewrite E. f_equal. ring.
  - intros w t w' H Hf Hf'.
    destruct (run_single_timestep_inv args w t w' H)
      as (obs & record & reward & done & _ & _ & _ & _ & _ & _ & Hs & _ & _ & Ht & _).
    rewrite Hf, Hf' in Hs. destruct done; [exact Ht|discriminate].
  - intros data w w' rr Hf Hrr H.
    destruct (run_epoch_record args eps data w w' rr H Hf Hrr)
      as (ws & w1 & t & _ & _ & _ & _ & _ & _ & Ht & E).
    exists t. split; [exact Ht|]. rewrite E. f_equal. ring.
  - intros steps horizon w w' rr Hf Hrr [Hr _] Hends Hh H.
    destruct (run_epoch_record args eps (seq 0 steps) w w' rr H Hf Hrr)
      as (ws & w1 & t & Hstart & Hrun & Henv & Hm & Hfs & Ht1 & Ht & E).
    rewrite <- Henv in Hends.
    destruct (run_once_on_dataset_last_index args eps steps 0 horizon ws w1
                Hrun Hfs Hends Hh) as (k & _ & Htk & Hrk).
    rewrite Ht1 in Htk. injection Htk as ->.
    rewrite Hm, Hr in Hrk. simpl in Hrk.
    exists k, ws, w1. repeat split; auto.
    rewrite E. f_equal. ring.
Qed.

(** C8.  Training that ends normally ends either because the episode count
    has reached the cap or because the completion of the last episode found
    the running reward above the environment's reward threshold and raised
    the early-stop flag, and no earlier episode's completion found it so; and
    conversely the loop does end, normally, at the first episode for which
    one of the two holds. *)
Theorem C8_training_terminates :
  forall (ext : Externals) (args : Args) (eps : R) (data : list nat)
         (n : nat) (w : World),
    should_terminate w = false ->
    should_terminate_single_epoch w = false ->
    (forall w',
        internal_run (trainer args eps) data n w = Ok w' ->
        exists k,
          (k <= n)%nat
          /\ iter_epoch (trainer args eps) data k w = Ok w'
          /\ epoch (state w') = (epoch (state w) + k)%nat
          /\ (k = n \/ (0 < k)%nat /\ exceeds_threshold w' /\ should_terminate w' = true)
          /\ forall j wj,
               (0 < j < k)%nat ->
               iter_epoch (trainer args eps) data j w = Ok wj ->
               ~ exceeds_threshold wj /\ should_terminate wj = false)
    /\ (forall k wk,
           (k <= n)%nat ->
           iter_epoch (trainer args eps) data k w = Ok wk ->
           (forall j wj,
               (0 < j < k)%nat ->
               iter_epoch (trainer args eps) data j w = Ok wj ->
               ~ exceeds_threshold wj) ->
           (k = n \/ (0 < k)%nat /\ exceeds_threshold wk) ->
           internal_run (trainer args eps) data n w = Ok wk).
Proof.
  intros ext args eps data n w Hterm Hflag. split.
  - intros w' H. now apply internal_run_stops.
  - intros k wk Hk Hiter Hbefore Hwhy.
    now apply (internal_run_stops_at args eps data k).
Qed.

(** C9.  When [gym] cannot be imported the script raises at once the
    [RuntimeError] that tells the user to install it, and does nothing else;
    when it can be imported, every exception the script ends with comes out
    of a library call, never from a [raise] of the script's own. *)
Theorem C9_gym_import_guard :
  forall (ext : Externals) (args : Args),
    script false args
    = Raised (RuntimeError "Please install opengym: pip install gym")
    /\ (forall e, script true args = Raised e ->
          raised_by_library e
          /\ e <> RuntimeError "Please install opengym: pip install gym").
Proof.
  intros ext args. split; [reflexivity|].
  intros e H. unfold script in H. apply main_raises in H.
  split; [exact H|].
  intros ->. now apply install_message_not_library.
Qed.

(** ** Runs that do not raise *)

Section Progress.
Context {ext : Externals}.
Variables (args : Args) (eps : R).

Lemma run_single_timestep_progress w t obs :
  observation (state w) = Some obs -> length obs = 4%nat ->
  exists action w',
    run_single_timestep args w t = Ok w'
    /\ env w' = env_after args (env w) action
    /\ observation (state w') = Some (step_observation (env w) action)
    /\ should_terminate_single_epoch w'
       = (step_done (env w) action || should_terminate_single_epoch w)%bool
    /\ timestep (state w')
       = (if step_done (env w) action then Some t else timestep (state w)).
Proof.
  intros Hobs Hlen. unfold run_single_timestep. rewrite Hobs. cbn [getattr bind].
  destruct (uniform (rng w)) as [u rng'].
  destruct (NetworkFacts.select_action_ok (model w) obs u Hlen)
    as (probs & v & _ & _ & Hs).
  rewrite Hs. cbn [bind].
  exists (torch.sample (torch.Categorical probs) u).
  unfold env_after, step_observation, step_done.
  destruct (env_step (env w) _) as [env' [[obs' reward] done]].
  destruct done; eexists; (split; [reflexivity|]); cbn; now repeat split.
Qed.

Lemma run_once_on_dataset_progress data : forall n w obs,
  well_shaped_env ->
  observation (state w) = Some obs -> length obs = 4%nat ->
  should_terminate_single_epoch w = false ->
  ends_within args n (env w) -> (n <= length data)%nat ->
  exists w1,
    run_once_on_dataset (trainer args eps) data w = Ok w1
    /\ timestep (state w1) <> None.
Proof.
  induction data as [|t data IH]; intros n w obs Hshape Hobs Hlen Hflag Hends Hn.
  - destruct n; [contradiction|simpl in Hn; lia].
  - destruct n as [|n]; [contradiction|].
    destruct (run_single_timestep_progress w t obs Hobs Hlen)
      as (action & w' & Hstep & Henv & Hobs' & Hsingle & Ht).
    simpl. rewrite Hstep. cbn [bind]. rewrite Hsingle, Hflag.
    destruct (Hends action) as [Hdone|Hlater].
    + rewrite Hdone. cbn. eexists. split; [reflexivity|].
      cbn. rewrite Ht, Hdone. discriminate.
    + destruct (step_done (env w) action) eqn:Hdone.
      * cbn. eexists. split; [reflexivity|]. cbn. rewrite Ht. discriminate.
      * cbn. apply (IH n w' (step_observation (env w) action)); auto.
        -- apply Hshape.
        -- now rewrite Hsingle, Hflag.
        -- now rewrite Henv.
        -- simpl in Hn. lia.
Qed.

Lemma epoch_completed_progress w1 t rr :
  timestep (state w1) = Some t -> running_reward (state w1) = Some rr ->
  saved_actions (model w1) <> [] -> rewards (model w1) <> [] ->
  Forall one_entry (saved_actions (model w1)) ->
  exists w', fire (on_epoch_completed (trainer args eps)) w1 = Ok w'.
Proof.
  intros Ht Hrr Hs Hr Hone.
  cbn [trainer on_epoch_completed fire].
  assert (Hup : exists w2, update_model args eps w1 = Ok w2).
  { unfold update_model. rewrite Ht, Hrr. cbn [getattr bind].
    destruct (finish_episode_returns (model w1) (optimizer w1) (gamma args) eps
                Hs Hr Hone) as (o & wt & E).
    rewrite E. now eexists. }
  destruct Hup as [w2 Hup]. rewrite Hup. cbn [bind].
  destruct (update_model_inv args eps w1 w2 Hup)
    as (t' & rr' & _ & _ & Hrr2 & Ht2 & _).
  assert (Hlog : exists w3, every (log_interval args) log_episode w2 = Ok w3).
  { unfold every, log_episode.
    destruct (epoch (state w2) mod log_interval args =? 0)%nat; [|now eexists].
    rewrite Ht2, Hrr2. cbn [getattr bind]. now eexists. }
  destruct Hlog as [w3 Hlog]. rewrite Hlog. cbn [bind].
  destruct (log_episode_inv _ w2 w3 Hlog) as (_ & Hst3 & _).
  unfold should_finish_training. rewrite Hst3, Hrr2, Ht2. cbn [getattr bind].
  destruct (Rgt_dec _ _); now eexists.
Qed.

Variables (data : list nat) (horizon : nat).
Hypothesis shape : well_shaped_env.
Hypothesis ends : forall e, ends_within args horizon (fst (env_reset e)).
Hypothesis enough : (horizon <= length data)%nat.

Lemma run_epoch_progress w rr :
  buffers_empty w -> should_terminate_single_epoch w = false ->
  running_reward (state w) = Some rr ->
  exists w', run_epoch (trainer args eps) data w = Ok w'.
Proof.
  intros [Hr Hs] Hflag Hrr. unfold run_epoch.
  cbn [trainer on_epoch_started fire]. unfold reset_environment_state.
  pose proof (proj1 shape (env (begin_epoch w))) as Hlen.
  pose proof (ends (env (begin_epoch w))) as Hends.
  destruct (env_reset (env (begin_epoch w))) as [env' obs]. cbn [bind fst snd] in *.
  match goal with
  | |- exists w', (x <- run_once_on_dataset _ _ ?ws ;; _) = _ => set (ws0 := ws)
  end.
  destruct (run_once_on_dataset_progress data horizon ws0 obs shape eq_refl Hlen
              Hflag Hends enough) as (w1 & Hrun & Ht).
  fold (trainer args eps). rewrite Hrun. cbn [bind].
  destruct (run_once_on_dataset_inv args eps data ws0 w1 Hrun Hflag)
    as (k & _ & Hk & Hr1 & Hs1 & Hone & _ & _ & Hrr1 & _).
  assert (Hne : data <> []).
  { intro E. rewrite E in enough. simpl in enough.
    assert (horizon = 0)%nat by lia. subst horizon.
    exact (ends (env w)). }
  specialize (Hk Hne).
  destruct (timestep (state w1)) as [t|] eqn:Ht1; [|now elim Ht].
  apply (epoch_completed_progress w1 t rr); auto.
  - now rewrite Hrr1.
  - intro E. rewrite E in Hs1. simpl in Hs1. lia.
  - intro E. rewrite E in Hr1. simpl in Hr1. lia.
  - apply Hone. cbn. rewrite Hs. constructor.
Qed.

Lemma internal_run_progress n : forall w rr,
  buffers_empty w -> should_terminate_single_epoch w = false ->
  running_reward (state w) = Some rr ->
  exists w', internal_run (trainer args eps) data n w = Ok w'.
Proof.
  induction n as [|n IH]; intros w rr Hem Hflag Hrr; [now eexists|].
  simpl. destruct (should_terminate w); [now eexists|].
  destruct (run_epoch_progress w rr Hem Hflag Hrr) as [w1 Hrun].
  rewrite Hrun. cbn [bind].
  destruct (run_epoch_inv args eps data w w1 Hrun Hflag)
    as (? & ? & ? & ? & _ & _ & _ & _ & _ & Hrr1 & _ & Hem1 & Hflag1 & _).
  now apply (IH w1 _ Hem1 Hflag1 Hrr1).
Qed.

End Progress.

(** ** The script on the small instance *)

Lemma two_step_world_shape : @well_shaped_env two_step_world.
Proof. split; intros; reflexivity. Qed.

Lemma two_step_world_ends (args : Args) e :
  @ends_within two_step_world args 2 (fst (@env_reset two_step_world e)).
Proof.
  intro a. right. intro b. left.
  unfold env_after, step_done. now destruct (render args).
Qed.

Lemma two_timesteps_at_least : (2 <= 10000)%nat.
Proof. apply Nat.leb_le. vm_compute. reflexivity. Qed.

Lemma timesteps_enough : (2 <= length (seq 0 10000))%nat.
Proof. rewrite length_seq. exact two_timesteps_at_least. Qed.

Lemma script_on_two_step_world :
  @script two_step_world true default_args
  = internal_run (trainer default_args float32_eps) (seq 0 10000)
      (max_episodes default_args) started_world.
Proof. reflexivity. Qed.

Lemma script_returns :
  exists w', @script two_step_world true default_args = Ok w'.
Proof.
  rewrite script_on_two_step_world.
  apply (internal_run_progress default_args float32_eps (seq 0 10000) 2
           two_step_world_shape (two_step_world_ends default_args)
           timesteps_enough _ started_world 10); now repeat split.
Qed.

Lemma C5_select_action_appends_one_witness :
  exists (action : nat) (record : SavedAction) (model' : Policy),
    select_action zero_policy [0.1; -0.2; 0.03; 0.4] 0.5 = Ok (action, model')
    /\ saved_actions model' = saved_actions zero_policy ++ [record]
    /\ length (saved_actions model') = S (length (saved_actions zero_policy))
    /\ rewards model' = rewards zero_policy.
Proof.
  apply (C5_select_action_appends_one zero_policy [0.1; -0.2; 0.03; 0.4] 0.5).
  reflexivity.
Defined.

Lemma C10_forward_distribution_witness :
  exists p0 p1 v,
    forward zero_policy [0.1; -0.2; 0.03; 0.4] = Ok ([p0; p1], [v])
    /\ 0 <= p0 /\ 0 <= p1 /\ p0 + p1 = 1
    /\ forall u, exists action model',
         select_action zero_policy [0.1; -0.2; 0.03; 0.4] u = Ok (action, model')
         /\ (action = 0 \/ action = 1)%nat.
Proof.
  apply (C10_forward_distribution zero_policy [0.1; -0.2; 0.03; 0.4]).
  reflexivity.
Defined.


Lemma C4_finish_episode_clears_buffers_witness :
  exists model' optimizer',
    @finish_episode two_step_world
      (append_reward
         (append_saved_action zero_policy {| log_prob := - ln 2; value := [0] |}) 1)
      tt 0.99 float32_eps
    = (model', optimizer', None)
    /\ length (rewards model') = 0%nat /\ length (saved_actions model') = 0%nat.
Proof.
  pose proof (C4_finish_episode_clears_buffers two_step_world
                (append_reward
                   (append_saved_action zero_policy
                      {| log_prob := - ln 2; value := [0] |}) 1)
                tt 0.99 float32_eps) as [Hcleared Hreturns].
  destruct Hreturns as (model' & optimizer' & E).
  - discriminate.
  - discriminate.
  - repeat constructor.
  - exists model', optimizer'. split; [exact E|]. exact (Hcleared model' optimizer' E).
Defined.

Lemma first_episode_runs :
  exists w', run_epoch (trainer default_args float32_eps) (seq 0 10000) started_world
             = Ok w'.
Proof.
  apply (run_epoch_progress default_args float32_eps (seq 0 10000) 2
           two_step_world_shape (two_step_world_ends default_args)
           timesteps_enough started_world 10); now repeat split.
Qed.

Lemma first_boundary_reached :
  exists w1,
    episode_boundary (trainer default_args float32_eps) (seq 0 10000)
      started_world w1.
Proof.
  destruct first_episode_runs as [w' H].
  destruct (run_epoch_inv default_args float32_eps (seq 0 10000) started_world w' H
              eq_refl) as (ws & w1 & _ & _ & Hstart & Hrun & _).
  exists w1, started_world, ws.
  split; [constructor|]. split; [reflexivity|]. now split.
Qed.

Lemma C6_buffers_paired_by_timestep_witness :
  exists w1,
    episode_boundary (trainer default_args float32_eps) (seq 0 10000)
      started_world w1
    /\ length (rewards (model w1)) = length (saved_actions (model w1)).
Proof.
  destruct first_boundary_reached as [w1 H]. exists w1. split; [exact H|].
  apply (proj2 (C6_buffers_paired_by_timestep two_step_world default_args
                  float32_eps (seq 0 10000)) started_world); try exact H.
  - now split.
  - reflexivity.
Defined.

Lemma C7_running_reward_smoothing_witness :
  exists w' t ws w1,
    run_epoch (trainer default_args float32_eps) (seq 0 10000) started_world = Ok w'
    /\ fire (on_epoch_started (trainer default_args float32_eps))
         (begin_epoch started_world) = Ok ws
    /\ run_once_on_dataset (trainer default_args float32_eps) (seq 0 10000) ws = Ok w1
    /\ length (rewards (model w1)) = S t
    /\ timestep (state w') = Some t
    /\ running_reward (state w') = Some (0.99 * 10 + 0.01 * INR t).
Proof.
  destruct first_episode_runs as [w' H].
  destruct (proj2 (proj2 (proj2 (proj2
              (C7_running_reward_smoothing two_step_world default_args float32_eps))))
              10000%nat 2%nat started_world w' 10 eq_refl eq_refl
              (conj eq_refl eq_refl)
              (two_step_world_ends default_args 0%nat)
              two_timesteps_at_least H)
    as (t & ws & w1 & Hstart & Hrun & Hlen & Ht & Hrr).
  exists w', t, ws, w1.
  exact (conj H (conj Hstart (conj Hrun (conj Hlen (conj Ht Hrr))))).
Defined.

Lemma iter_epoch_one {ext : Externals} tr data w :
  iter_epoch tr data 1 w = run_epoch tr data w.
Proof. simpl. now destruct (run_epoch tr data w). Qed.

Lemma first_episode_solves w1 :
  run_epoch (trainer default_args float32_eps) (seq 0 10000) started_world = Ok w1 ->
  exceeds_threshold w1 /\ should_terminate w1 = true
  /\ epoch (state w1) = 1%nat.
Proof.
  intro H.
  destruct (run_epoch_inv default_args float32_eps (seq 0 10000) started_world w1 H
              eq_refl)
    as (ws & wb & t & rr & _ & _ & _ & Hrr & _ & Hrr1 & Hep & _ & _ & Hcause).
  injection Hrr as <-.
  assert (Hx : exceeds_threshold w1).
  { exists (10 * 0.99 + INR t * 0.01). split; [exact Hrr1|].
    change (10 * 0.99 + INR t * 0.01 > 9.5). pose proof (pos_INR t). lra. }
  split; [exact Hx|]. split; [|exact Hep].
  destruct Hcause as [[_ Hf]|[Hn _]]; [exact Hf|contradiction].
Qed.

Lemma cap_not_zero : max_episodes default_args <> 0%nat.
Proof.
  intro E. apply (f_equal (Nat.eqb 0)) in E. vm_compute in E. discriminate.
Qed.

(** On the small instance the first episode leaves the running reward at
    9.9 or more, above the threshold 9.5: the script ends normally after one
    episode of the million it may run. *)
Lemma C8_training_terminates_witness :
  exists w',
    @script two_step_world true default_args = Ok w'
    /\ epoch (state w') = 1%nat
    /\ should_terminate w' = true
    /\ exceeds_threshold w'.
Proof.
  destruct script_returns as [w' H]. exists w'. split; [exact H|].
  rewrite script_on_two_step_world in H.
  destruct (proj1 (C8_training_terminates two_step_world default_args float32_eps
                     (seq 0 10000) (max_episodes default_args) started_world
                     eq_refl eq_refl) w' H)
    as (k & _ & Hiter & _ & Hwhy & Hbefore).
  destruct first_episode_runs as [w1 H1].
  destruct (first_episode_solves w1 H1) as (Hx & Hf & Hep).
  destruct k as [|[|k]].
  - destruct Hwhy as [E|[Hlt _]]; [|inversion Hlt].
    exfalso. apply cap_not_zero. now symmetry.
  - rewrite iter_epoch_one, H1 in Hiter.
    injection Hiter as <-. exact (conj Hep (conj Hf Hx)).
  - exfalso. apply (Hbefore 1%nat w1).
    + split; [apply Nat.lt_0_1|apply -> Nat.succ_lt_mono; apply Nat.lt_0_succ].
    + rewrite iter_epoch_one. exact H1.
    + exact Hx.
Defined.

(** ** Concrete episodes on machine floats *)

Module Binary64Facts.
Import Binary64.

Example returns_1_1_1 :
  discounted_returns 1%float [1; 1; 1]%float = [3; 2; 1]%float.
Proof. vm_compute. reflexivity. Qed.

Example returns_0_0_1 :
  let rs := discounted_returns 0.99%float [0; 0; 1]%float in
  length rs = 3%nat
  /\ PrimFloat.ltb (PrimFloat.abs (nth 0 rs 0 - 0.9801))%float 1e-15%float = true
  /\ nth 1 rs 0%float = 0.99%float
  /\ nth 2 rs 0%float = 1%float.
Proof. vm_compute. repeat split. Qed.

(** One timestep: the normalized return is nan. *)
Example single_timestep_nan :
  map PrimFloat.is_nan (normalized_returns 0.99%float float32_eps [1%float]) = [true].
Proof. vm_compute. reflexivity. Qed.

(** Rewards [1; 2] with [gamma = 0.5]: both returns are 2 and both
    normalized returns are 0. *)
Example constant_returns :
  discounted_returns 0.5%float [1; 2]%float = [2; 2]%float
  /\ normalized_returns 0.5%float float32_eps [1; 2]%float = [0; 0]%float.
Proof. vm_compute. split; reflexivity. Qed.

(** A full episode of the script's environment, 500 steps of reward 1, with
    [gamma = 0.9]: the returns never increase along the episode, and the
    first two are one and the same float; their normalized values never
    increase either. *)
Example constant_rewards_500 :
  let rs := discounted_returns 0.9%float (repeat 1%float 500) in
  non_increasing rs = true
  /\ PrimFloat.eqb (nth 0 rs 0%float) (nth 1 rs 0%float) = true
  /\ non_increasing (normalize float32_eps rs) = true.
Proof. vm_compute. repeat split. Qed.

End Binary64Facts.

(** ** An observation of the wrong shape *)

Lemma internal_run_raises_at_once {ext : Externals} tr data n w e :
  n <> 0%nat -> should_terminate w = false ->
  run_epoch tr data w = Raised e ->
  internal_run tr data n w = Raised e.
Proof.
  intros Hn Hf Hrun. destruct n as [|n]; [now elim Hn|].
  simpl. now rewrite Hf, Hrun.
Qed.

Lemma first_timestep : seq 0 10000 = 0%nat :: seq 1 9999.
Proof.
  assert (E : 10000%nat = S 9999).
  { apply Nat.eqb_eq. vm_compute. reflexivity. }
  rewrite E. reflexivity.
Qed.

Lemma script_on_empty_observations :
  @script empty_observation_world true default_args
  = Raised (RuntimeError "mat1 and mat2 shapes cannot be multiplied").
Proof.
  unfold script, main. cbn [init_weights empty_observation_world].
  unfold Engine_run. cbn [trainer on_started fire initialize bind].
  apply internal_run_raises_at_once; [exact cap_not_zero|reflexivity|].
  unfold run_epoch. cbn [trainer on_epoch_started fire].
  unfold reset_environment_state. cbn [env_reset empty_observation_world bind].
  rewrite first_timestep.
  cbn [run_once_on_dataset trainer process_function].
  unfold run_single_timestep at 1.
  cbn [state observation set_observation begin_epoch with_state getattr bind
       uniform rng empty_observation_world].
  rewrite NetworkFacts.select_action_shape_error by (simpl; discriminate).
  reflexivity.
Qed.

Lemma C9_gym_import_guard_witness :
  @script two_step_world false default_args
  = Raised (RuntimeError "Please install opengym: pip install gym")
  /\ exists e,
       @script empty_observation_world true default_args = Raised e
       /\ raised_by_library e
       /\ e <> RuntimeError "Please install opengym: pip install gym".
Proof.
  split.
  - exact (proj1 (C9_gym_import_guard two_step_world default_args)).
  - eexists. split; [exact script_on_empty_observations|].
    exact (proj2 (C9_gym_import_guard empty_observation_world default_args) _
             script_on_empty_observations).
Defined.

(** * Further properties *)

(** ** [finish_episode]: the loss and the edge cases *)

Section LossFacts.
Context {ext : Externals}.

Lemma finish_episode_by_loss model optimizer gamma eps :
  finish_episode model optimizer gamma eps
  = match episode_loss model gamma eps with
    | Raised e => (model, optimizer, Some e)
    | Ok loss =>
        let '(optimizer', w) := backward_step optimizer (parameters model) loss in
        (clear_buffers model w, optimizer', None)
    end.
Proof. reflexivity. Qed.

Lemma normalized_returns_of_nil gamma eps : normalized_returns gamma eps [] = [].
Proof. reflexivity. Qed.

Lemma episode_loss_empty model gamma eps :
  saved_actions model = [] \/ rewards model = [] ->
  episode_loss model gamma eps
  = Raised (RuntimeError "stack expects a non-empty TensorList").
Proof.
  intros [H|H]; unfold episode_loss; rewrite H.
  - reflexivity.
  - rewrite normalized_returns_of_nil.
    now destruct (saved_actions model).
Qed.

Lemma loss_terms_finite saved : forall rs,
  Forall one_entry saved ->
  loss_terms (combine saved (torch.of_list rs))
  = Ok (map Some (map (fun p => policy_loss (fst p) (snd p)) (combine saved rs)),
        map Some (map (fun p => value_loss (fst p) (snd p)) (combine saved rs))).
Proof.
  induction saved as [|a saved IH]; intros rs Hone; [reflexivity|].
  destruct rs as [|r rs]; [reflexivity|].
  inversion Hone as [|? ? Ha Hrest]; subst.
  destruct (item_ok _ Ha) as [v Hv].
  change (combine (a :: saved) (torch.of_list (r :: rs)))
    with ((a, Some r) :: combine saved (torch.of_list rs)).
  cbn [loss_terms]. rewrite Hv. cbn [torch.item bind].
  rewrite (IH rs Hrest). cbn [bind fst snd combine map].
  unfold policy_loss, value_loss, item_value. rewrite Hv. reflexivity.
Qed.


Lemma combine_app_left {A B : Type} (l extra : list A) : forall (l' : list B),
  length l = length l' -> combine (l ++ extra) l' = combine l l'.
Proof.
  induction l as [|a l IH]; intros [|b l'] H; simpl in *; try discriminate.
  - now destruct extra.
  - f_equal. apply IH. now injection H.
Qed.

Lemma clear_buffers_any model model' w : clear_buffers model w = clear_buffers model' w.
Proof. now destruct w as [[a h] v]. Qed.

End LossFacts.

(** X1.  On an episode with no saved action or no reward, [finish_episode]
    ends with the exception of [torch.stack] on an empty list, before the
    update and before the clearing: the model, with whatever the other buffer
    holds, and the optimizer are as they were. *)
Theorem X1_finish_episode_empty_raises :
  forall (ext : Externals) (model : Policy) (optimizer : Optimizer) (gamma eps : R),
    saved_actions model = [] \/ rewards model = [] ->
    finish_episode model optimizer gamma eps
    = (model, optimizer, Some (RuntimeError "stack expects a non-empty TensorList")).
Proof.
  intros ext model optimizer gamma eps H.
  rewrite finish_episode_by_loss. now rewrite (episode_loss_empty model gamma eps H).
Qed.

Lemma X1_finish_episode_empty_raises_witness :
  @finish_episode two_step_world (append_reward zero_policy 1) tt 0.99 float32_eps
  = (append_reward zero_policy 1, tt,
     Some (RuntimeError "stack expects a non-empty TensorList"))
  /\ rewards (append_reward zero_policy 1) = [1].
Proof.
  split; [|reflexivity].
  apply (X1_finish_episode_empty_raises two_step_world (append_reward zero_policy 1)
           tt 0.99 float32_eps).
  left. reflexivity.
Defined.

(** X2.  The loop over [zip(saved_actions, rewards)] stops with the rewards:
    saved actions beyond the number of rewards change nothing, neither the
    exception the call ends with nor, when it returns, the model and the
    optimizer it leaves. *)
Theorem X2_finish_episode_ignores_surplus_saved_actions :
  forall (ext : Externals) (model : Policy) (extra : list SavedAction)
         (optimizer : Optimizer) (gamma eps : R),
    length (saved_actions model) = length (rewards model) ->
    snd (finish_episode (extend_saved_actions model extra) optimizer gamma eps)
    = snd (finish_episode model optimizer gamma eps)
    /\ (snd (finish_episode model optimizer gamma eps) = None ->
        finish_episode (extend_saved_actions model extra) optimizer gamma eps
        = finish_episode model optimizer gamma eps).
Proof.
  intros ext model extra optimizer gamma eps Hlen.
  assert (E : episode_loss (extend_saved_actions model extra) gamma eps
              = episode_loss model gamma eps).
  { unfold episode_loss. cbn [saved_actions rewards extend_saved_actions].
    rewrite combine_app_left; [reflexivity|].
    now rewrite NormalizeFacts.normalized_returns_length. }
  rewrite !finish_episode_by_loss, E.
  destruct (episode_loss model gamma eps) as [loss|e].
  - change (parameters (extend_saved_actions model extra)) with (parameters model).
    destruct (backward_step optimizer (parameters model) loss) as [o w].
    rewrite (clear_buffers_any (extend_saved_actions model extra) model w).
    now split.
  - split; [reflexivity|discriminate].
Qed.

Lemma X2_finish_episode_ignores_surplus_saved_actions_witness :
  let model :=
    append_reward
      (append_saved_action zero_policy {| log_prob := - ln 2; value := [0] |}) 1 in
  let extra := [{| log_prob := - ln 2; value := [0.5] |}] in
  snd (@finish_episode two_step_world (extend_saved_actions model extra) tt 0.99
         float32_eps)
  = snd (@finish_episode two_step_world model tt 0.99 float32_eps)
  /\ (snd (@finish_episode two_step_world model tt 0.99 float32_eps) = None ->
      @finish_episode two_step_world (extend_saved_actions model extra) tt 0.99
        float32_eps
      = @finish_episode two_step_world model tt 0.99 float32_eps).
Proof.
  apply (X2_finish_episode_ignores_surplus_saved_actions two_step_world).
  reflexivity.
Defined.

(** X3.  On an episode of at least two rewards, with [eps > 0] and saved
    actions as [select_action] records them, the call returns, and the loss
    it differentiates is a finite number: the sum over the timesteps of
    [-log_prob * (r - value)] plus the sum of the smooth L1 distances between
    [value] and [r], with [r] the normalized return of the timestep. *)
Theorem X3_finish_episode_finite_loss :
  forall (ext : Externals) (model : Policy) (optimizer : Optimizer) (gamma eps : R),
    (2 <= length (rewards model))%nat -> 0 < eps ->
    saved_actions model <> [] -> Forall one_entry (saved_actions model) ->
    finish_episode model optimizer gamma eps
    = (let '(optimizer', w) :=
         backward_step optimizer (parameters model)
           (Some (total_loss (saved_actions model)
                    (rnormalize eps
                       (Returns.discounted_returns gamma (rewards model))))) in
       (clear_buffers model w, optimizer', None)).
Proof.
  intros ext model optimizer gamma eps Hlen Heps Hne Hone.
  rewrite finish_episode_by_loss. unfold episode_loss.
  rewrite (NormalizeFacts.normalized_returns_finite gamma eps _ Hlen Heps).
  rewrite (loss_terms_finite _ _ Hone). cbn [bind fst snd].
  set (rs := rnormalize eps (Returns.discounted_returns gamma (rewards model))).
  assert (Hrs : (2 <= length rs)%nat).
  { unfold rs. now rewrite NormalizeFacts.rnormalize_length,
      ReturnsFacts.discounted_returns_length. }
  destruct (saved_actions model) as [|a saved]; [now elim Hne|].
  destruct rs as [|r rs']; [simpl in Hrs; lia|].
  cbn [combine map torch.stack bind].
  change (Some (policy_loss (fst (a, r)) (snd (a, r)))
          :: map Some (map (fun p => policy_loss (fst p) (snd p)) (combine saved rs')))
    with (torch.of_list
            (map (fun p => policy_loss (fst p) (snd p)) (combine (a :: saved) (r :: rs')))).
  change (Some (value_loss (fst (a, r)) (snd (a, r)))
          :: map Some (map (fun p => value_loss (fst p) (snd p)) (combine saved rs')))
    with (torch.of_list
            (map (fun p => value_loss (fst p) (snd p)) (combine (a :: saved) (r :: rs')))).
  rewrite !TensorFacts.sum_of_list. reflexivity.
Qed.

Lemma X3_finish_episode_finite_loss_witness :
  let model :=
    append_reward
      (append_reward
         (append_saved_action
            (append_saved_action zero_policy {| log_prob := - ln 2; value := [0] |})
            {| log_prob := - ln 2; value := [0] |}) 1) 1 in
  @finish_episode two_step_world model tt 0.99 float32_eps
  = (let '(optimizer', w) :=
       @backward_step two_step_world tt (parameters model)
         (Some (total_loss (saved_actions model)
                  (rnormalize float32_eps
                     (Returns.discounted_returns 0.99 (rewards model))))) in
     (clear_buffers model w, optimizer', None)).
Proof.
  apply (X3_finish_episode_finite_loss two_step_world).
  - simpl. lia.
  - exact NormalizedMoments.float32_eps_pos.
  - discriminate.
  - repeat constructor.
Defined.

(** X4.  On an episode of one reward the call still returns and clears both
    buffers, but the loss it hands to the optimizer is not a finite number. *)
Theorem X4_finish_episode_one_step_loss_not_finite :
  forall (ext : Externals) (model : Policy) (optimizer : Optimizer) (gamma eps r : R)
         (a : SavedAction) (rest : list SavedAction),
    rewards model = [r] -> saved_actions model = a :: rest -> one_entry a ->
    finish_episode model optimizer gamma eps
    = (let '(optimizer', w) := backward_step optimizer (parameters model) None in
       (clear_buffers model w, optimizer', None)).
Proof.
  intros ext model optimizer gamma eps r a rest Hr Hs Ha.
  rewrite finish_episode_by_loss. unfold episode_loss. rewrite Hr, Hs.
  assert (E : normalized_returns gamma eps [r] = [None]).
  { unfold normalized_returns.
    rewrite ReturnsFacts.discounted_returns_cons. simpl torch.of_list.
    apply NormalizeFacts.normalize_single. }
  rewrite E. destruct (item_ok _ Ha) as [v Hv].
  cbn [combine loss_terms]. rewrite Hv.
  destruct rest; reflexivity.
Qed.

Lemma X4_finish_episode_one_step_loss_not_finite_witness :
  let model :=
    append_reward
      (append_saved_action zero_policy {| log_prob := - ln 2; value := [0] |}) 1 in
  @finish_episode two_step_world model tt 0.99 float32_eps
  = (let '(optimizer', w) := @backward_step two_step_world tt (parameters model) None in
     (clear_buffers model w, optimizer', None)).
Proof.
  apply (X4_finish_episode_one_step_loss_not_finite two_step_world _ tt 0.99
           float32_eps 1 {| log_prob := - ln 2; value := [0] |} []);
    reflexivity.
Defined.

(** ** [select_action] and the per-step callback *)

Module SelectFacts.

Lemma Categorical_pair_entry p0 p1 a :
  0 < p0 -> 0 < p1 -> (a < 2)%nat ->
  0 < nth a (torch.Categorical [p0; p1]) 0 <= 1.
Proof.
  intros H0 H1 Ha. unfold torch.Categorical. cbn [map Rsum fold_right].
  assert (Hs : 0 < p0 + (p1 + 0)) by lra.
  destruct a as [|[|a]]; [| |lia]; cbn [nth]; split.
  - now apply Rdiv_lt_0_compat.
  - apply (Rmult_le_reg_r (p0 + (p1 + 0))); [exact Hs|].
    unfold Rdiv. rewrite Rmult_assoc, Rinv_l by lra. lra.
  - now apply Rdiv_lt_0_compat.
  - apply (Rmult_le_reg_r (p0 + (p1 + 0))); [exact Hs|].
    unfold Rdiv. rewrite Rmult_assoc, Rinv_l by lra. lra.
Qed.

Lemma ln_nonpos x : 0 < x <= 1 -> ln x <= 0.
Proof.
  intros [H0 H1]. rewrite <- ln_1.
  destruct (Rle_lt_or_eq_dec x 1 H1) as [Hlt| ->]; [|lra].
  left. now apply ln_increasing.
Qed.

End SelectFacts.

(** X5.  [select_action] raises exactly when the observation does not have
    the four entries the first layer takes, and then with torch's shape
    error; on every other observation it returns. *)
Theorem X5_select_action_raises_on_shape :
  forall (model : Policy) (observation : list R) (u : R),
    ((exists e, select_action model observation u = Raised e)
     <-> length observation <> 4%nat)
    /\ (forall e, select_action model observation u = Raised e ->
          e = RuntimeError "mat1 and mat2 shapes cannot be multiplied").
Proof.
  intros model x u.
  destruct (Nat.eq_dec (length x) 4) as [H|H].
  - destruct (NetworkFacts.select_action_ok model x u H) as (probs & v & _ & _ & E).
    split; [split|].
    + intros [e He]. rewrite E in He. discriminate.
    + intro Hn. now elim Hn.
    + intros e He. rewrite E in He. discriminate.
  - pose proof (NetworkFacts.select_action_shape_error model x u H) as E.
    split; [split|].
    + intros _. exact H.
    + intros _. eexists. exact E.
    + intros e He. rewrite E in He. now injection He.
Qed.

(** X6.  On an observation of four entries [select_action] leaves the
    weights and the rewards as they were and appends one record to
    [saved_actions]: its value is the one-entry value estimate [forward]
    returned, and its log-probability is not positive, the action returned
    being the one sampled from the probabilities of [forward], where it has a
    positive probability of at most 1. *)
Theorem X6_select_action_record :
  forall (model : Policy) (observation : list R) (u : R),
    length observation = 4%nat ->
    exists (action : nat) (record : SavedAction) (probs : list R) (model' : Policy),
      select_action model observation u = Ok (action, model')
      /\ saved_actions model' = saved_actions model ++ [record]
      /\ rewards model' = rewards model
      /\ parameters model' = parameters model
      /\ forward model observation = Ok (probs, value record)
      /\ action = torch.sample (torch.Categorical probs) u
      /\ 0 < nth action (torch.Categorical probs) 0 <= 1
      /\ log_prob record <= 0
      /\ one_entry record.
Proof.
  intros model x u H.
  destruct (NetworkFacts.select_action_ok model x u H) as (probs & v & Hf & Hl & E).
  exists (torch.sample (torch.Categorical probs) u). eexists. exists probs. eexists.
  split; [exact E|]. cbn [value log_prob saved_actions rewards append_saved_action].
  split; [reflexivity|]. split; [reflexivity|]. split; [reflexivity|].
  split; [exact Hf|]. split; [reflexivity|].
  assert (Hpos : forall p, In p probs -> 0 < p).
  { intros p Hin. rewrite (NetworkFacts.forward_ok model x H) in Hf.
    injection Hf as <- _. now apply NetworkFacts.softmax_pos in Hin. }
  destruct probs as [|p0 [|p1 [|p2 probs]]]; try discriminate.
  assert (Ha : (torch.sample (torch.Categorical [p0; p1]) u < 2)%nat).
  { change 2%nat with (length (torch.Categorical [p0; p1])).
    apply NetworkFacts.sample_lt. discriminate. }
  assert (Hp : 0 < nth (torch.sample (torch.Categorical [p0; p1]) u)
                     (torch.Categorical [p0; p1]) 0 <= 1).
  { apply SelectFacts.Categorical_pair_entry; auto; apply Hpos; simpl; auto. }
  split; [exact Hp|]. split; [|reflexivity].
  unfold torch.log_prob_of. now apply SelectFacts.ln_nonpos.
Qed.

Lemma X6_select_action_record_witness :
  exists (action : nat) (record : SavedAction) (probs : list R) (model' : Policy),
    select_action zero_policy [0.1; -0.2; 0.03; 0.4] 0.5 = Ok (action, model')
    /\ saved_actions model' = saved_actions zero_policy ++ [record]
    /\ rewards model' = rewards zero_policy
    /\ parameters model' = parameters zero_policy
    /\ forward zero_policy [0.1; -0.2; 0.03; 0.4] = Ok (probs, value record)
    /\ action = torch.sample (torch.Categorical probs) 0.5
    /\ 0 < nth action (torch.Categorical probs) 0 <= 1
    /\ log_prob record <= 0
    /\ one_entry record.
Proof.
  apply (X6_select_action_record zero_policy [0.1; -0.2; 0.03; 0.4] 0.5).
  reflexivity.
Defined.

Section StepFacts.
Context {ext : Externals}.
Variable args : Args.

Lemma run_single_timestep_frame w t w' :
  run_single_timestep args w t = Ok w' ->
  optimizer w' = optimizer w
  /\ parameters (model w') = parameters (model w)
  /\ rng w' = snd (uniform (rng w))
  /\ running_reward (state w') = running_reward (state w)
  /\ epoch (state w') = epoch (state w)
  /\ should_terminate w' = should_terminate w
  /\ stdout w' = stdout w.
Proof.
  unfold run_single_timestep.
  destruct (observation (state w)) as [obs|] eqn:Hobs; [|discriminate].
  cbn [getattr bind].
  destruct (uniform (rng w)) as [u rng'].
  destruct (Nat.eq_dec (length obs) 4) as [Hlen|Hlen].
  - destruct (NetworkFacts.select_action_ok (model w) obs u Hlen)
      as (probs & v & _ & _ & Hs).
    rewrite Hs. cbn [bind]. intro H.
    destruct (env_step (env w) (torch.sample (torch.Categorical probs) u))
      as [env' [[obs' reward] done]].
    destruct done; injection H as <-; cbn; now repeat split.
  - rewrite (NetworkFacts.select_action_shape_error (model w) obs u Hlen).
    discriminate.
Qed.

(** Along the steps of an episode the buffers grow together, and what is
    saved is what [select_action] records. *)
Lemma stepped_buffers w w' :
  stepped args w w' ->
  buffers_empty w ->
  length (rewards (model w')) = length (saved_actions (model w'))
  /\ (1 <= length (rewards (model w')))%nat
  /\ Forall one_entry (saved_actions (model w'))
  /\ optimizer w' = optimizer w
  /\ parameters (model w') = parameters (model w).
Proof.
  intros Hst [Hr Hs].
  induction Hst as [w t w' Hstep|w t w' w'' _ IH Hstep].
  - destruct (run_single_timestep_inv args w t w' Hstep)
      as (obs & record & reward & done & _ & _ & Hone & Hsa & Hre & _).
    destruct (run_single_timestep_frame w t w' Hstep) as (Ho & Hp & _).
    rewrite Hsa, Hre, Hr, Hs. cbn. repeat split; auto; now constructor.
  - destruct (IH Hr Hs) as (Hlen & Hpos & Hone & Ho & Hp).
    destruct (run_single_timestep_inv args w' t w'' Hstep)
      as (obs & record & reward & done & _ & _ & Hone' & Hsa & Hre & _).
    destruct (run_single_timestep_frame w' t w'' Hstep) as (Ho' & Hp' & _).
    rewrite Hsa, Hre, !length_app. cbn. repeat split; try lia; try congruence.
    apply Forall_app. split; [exact Hone|]. now constructor.
Qed.

End StepFacts.

(** X7.  A run of the per-step callback that returns takes one draw from the
    random generator and leaves the optimizer, the weights, the running
    reward, the episode counter, the early-stop flag and the output as they
    were. *)
Theorem X7_run_single_timestep_frame :
  forall (ext : Externals) (args : Args) (w : World) (t : nat) (w' : World),
    run_single_timestep args w t = Ok w' ->
    optimizer w' = optimizer w
    /\ parameters (model w') = parameters (model w)
    /\ rng w' = snd (uniform (rng w))
    /\ running_reward (state w') = running_reward (state w)
    /\ epoch (state w') = epoch (state w)
    /\ should_terminate w' = should_terminate w
    /\ stdout w' = stdout w.
Proof.
  intros ext args w t w' H. now apply (run_single_timestep_frame args w t w').
Qed.

Lemma observed_world_steps :
  exists w', run_single_timestep default_args observed_world 0 = Ok w'.
Proof.
  destruct (run_single_timestep_progress default_args observed_world 0 [0; 0; 0; 0]
              eq_refl eq_refl) as (action & w' & H & _).
  now exists w'.
Qed.

Lemma X7_run_single_timestep_frame_witness :
  exists w',
    run_single_timestep default_args observed_world 0 = Ok w'
    /\ optimizer w' = optimizer observed_world
    /\ parameters (model w') = parameters (model observed_world)
    /\ rng w' = snd (uniform (rng observed_world))
    /\ running_reward (state w') = running_reward (state observed_world)
    /\ epoch (state w') = epoch (state observed_world)
    /\ should_terminate w' = should_terminate observed_world
    /\ stdout w' = stdout observed_world.
Proof.
  destruct observed_world_steps as [w' H]. exists w'. split; [exact H|].
  exact (X7_run_single_timestep_frame two_step_world default_args observed_world
           0%nat w' H).
Defined.

(** X8.  After any number (one or more) of runs of the per-step callback
    from empty buffers, [finish_episode] returns: it does not raise, it
    hands the update the optimizer and the weights untouched since the
    episode began, and it leaves both buffers empty. *)
Theorem X8_finish_episode_after_steps :
  forall (ext : Externals) (args : Args) (gamma eps : R) (w w' : World),
    buffers_empty w -> stepped args w w' ->
    exists loss optimizer' weights',
      backward_step (optimizer w) (parameters (model w)) loss = (optimizer', weights')
      /\ finish_episode (model w') (optimizer w') gamma eps
         = (clear_buffers (model w') weights', optimizer', None)
      /\ rewards (clear_buffers (model w') weights') = []
      /\ saved_actions (clear_buffers (model w') weights') = [].
Proof.
  intros ext args gamma eps w w' Hem Hst.
  destruct (stepped_buffers args w w' Hst Hem) as (Hlen & Hpos & Hone & Ho & Hp).
  assert (Hr : rewards (model w') <> []).
  { intro E. rewrite E in Hpos. simpl in Hpos. lia. }
  assert (Hs : saved_actions (model w') <> []).
  { intro E. rewrite E in Hlen. rewrite Hlen in Hpos. simpl in Hpos. lia. }
  rewrite finish_episode_by_loss.
  destruct (episode_loss (model w') gamma eps) as [loss|e] eqn:El.
  - exists loss. rewrite Ho, Hp.
    destruct (backward_step (optimizer w) (parameters (model w)) loss) as [o wt].
    exists o, wt. split; [reflexivity|]. split; [reflexivity|].
    apply and_comm. apply clear_buffers_empty.
  - exfalso.
    destruct (finish_episode_returns (model w') (optimizer w') gamma eps Hs Hr Hone)
      as (o & wt & E).
    rewrite finish_episode_by_loss, El in E. discriminate.
Qed.

Lemma X8_finish_episode_after_steps_witness :
  exists w' loss optimizer' weights',
    stepped default_args observed_world w'
    /\ @backward_step two_step_world (optimizer observed_world)
         (parameters (model observed_world)) loss
       = (optimizer', weights')
    /\ finish_episode (model w') (optimizer w') 0.99 float32_eps
       = (clear_buffers (model w') weights', optimizer', None)
    /\ rewards (clear_buffers (model w') weights') = []
    /\ saved_actions (clear_buffers (model w') weights') = [].
Proof.
  destruct observed_world_steps as [w' H].
  assert (Hst : stepped default_args observed_world w')
    by (apply (stepped_once default_args observed_world 0%nat w' H)).
  destruct (X8_finish_episode_after_steps two_step_world default_args 0.99 float32_eps
              observed_world w' (conj eq_refl eq_refl) Hst)
    as (loss & o & wt & Hb & Hf & Hr & Hs).
  exists w', loss, o, wt.
  exact (conj Hst (conj Hb (conj Hf (conj Hr Hs)))).
Defined.

(** ** The returns and their normalization *)

Module RoundedFacts.
Import Rounded.

Lemma rounded_loop_cons rnd gamma r rs :
  fold_left (step rnd gamma) (rev (r :: rs)) (0, [])
  = step rnd gamma (fold_left (step rnd gamma) (rev rs) (0, [])) r.
Proof. simpl. now rewrite fold_left_app. Qed.

Lemma rounded_loop_fst_hd rnd gamma rs :
  fst (fold_left (step rnd gamma) (rev rs) (0, []))
  = hd 0 (discounted_returns rnd gamma rs).
Proof.
  unfold discounted_returns.
  destruct rs as [|r rs]; [reflexivity|].
  now rewrite rounded_loop_cons.
Qed.

Lemma rounded_returns_nil rnd gamma : discounted_returns rnd gamma [] = [].
Proof. reflexivity. Qed.

Lemma rounded_returns_cons rnd gamma r rs :
  discounted_returns rnd gamma (r :: rs)
  = rnd (r + rnd (gamma * hd 0 (discounted_returns rnd gamma rs)))
    :: discounted_returns rnd gamma rs.
Proof.
  unfold discounted_returns at 1. rewrite rounded_loop_cons.
  unfold step at 1. cbn [snd]. rewrite rounded_loop_fst_hd. reflexivity.
Qed.

(** The loop that rounds nothing is the loop of [Returns]. *)
Lemma rounded_returns_exact gamma rs :
  discounted_returns (fun x => x) gamma rs = Returns.discounted_returns gamma rs.
Proof.
  induction rs as [|r rs IH]; [reflexivity|].
  now rewrite rounded_returns_cons, ReturnsFacts.discounted_returns_cons, IH.
Qed.

(** Episodes of one and the same non-negative reward per step: the next
    return computed is never below the ones computed so far. *)
Lemma constant_rewards_sorted rnd gamma c n :
  monotone rnd -> rnd 0 = 0 -> 0 <= gamma -> 0 <= c ->
  StronglySorted Rge (discounted_returns rnd gamma (repeat c n))
  /\ Forall (fun x => x <= rnd (c + rnd (gamma * hd 0 (discounted_returns rnd gamma
                                                          (repeat c n)))))
       (discounted_returns rnd gamma (repeat c n))
  /\ hd 0 (discounted_returns rnd gamma (repeat c n))
     <= rnd (c + rnd (gamma * hd 0 (discounted_returns rnd gamma (repeat c n)))).
Proof.
  intros Hmono H0 Hg Hc.
  assert (Hnext : forall h h', h <= h' ->
            rnd (c + rnd (gamma * h)) <= rnd (c + rnd (gamma * h'))).
  { intros h h' Hle. apply Hmono.
    assert (rnd (gamma * h) <= rnd (gamma * h')) by (apply Hmono; nra). lra. }
  induction n as [|n (Hs & Hall & Hh)].
  - simpl repeat. rewrite rounded_returns_nil. cbn [hd].
    split; [constructor|]. split; [constructor|].
    rewrite Rmult_0_r, H0, Rplus_0_r, <- H0 at 1. now apply Hmono.
  - simpl repeat. rewrite rounded_returns_cons.
    set (xs := discounted_returns rnd gamma (repeat c n)) in *.
    set (h := hd 0 xs) in *. cbn [hd].
    pose proof (Hnext _ _ Hh) as Hnew.
    split; [|split].
    + constructor; [exact Hs|].
      apply Forall_impl with (2 := Hall). intros x Hx. unfold Rge. lra.
    + constructor; [exact Hnew|].
      apply Forall_impl with (2 := Hall). intros x Hx. lra.
    + exact Hnew.
Qed.

End RoundedFacts.

(** X10.  For an episode that pays the same non-negative reward at every
    step (the environment of the script pays 1) and a non-negative discount
    factor, the raw returns never increase along the episode: the return of
    a step is at least the return of every later step.  This holds for the
    loop that rounds each product and each sum, whatever the rounding, as
    long as it is monotone and leaves 0 as it is, and so for the loop in
    exact arithmetic. *)
Theorem X10_constant_rewards_returns_never_increase :
  forall (rnd : R -> R) (gamma c : R) (steps : nat),
    monotone rnd -> rnd 0 = 0 -> 0 <= gamma -> 0 <= c ->
    StronglySorted Rge (Rounded.discounted_returns rnd gamma (repeat c steps))
    /\ StronglySorted Rge (Returns.discounted_returns gamma (repeat c steps)).
Proof.
  intros rnd gamma c n Hmono H0 Hg Hc. split.
  - now apply RoundedFacts.constant_rewards_sorted.
  - rewrite <- RoundedFacts.rounded_returns_exact.
    apply RoundedFacts.constant_rewards_sorted; auto.
    intros x y H. exact H.
Qed.

Lemma X10_constant_rewards_returns_never_increase_witness :
  StronglySorted Rge (Rounded.discounted_returns (fun x => x) 0.99 (repeat 1 3))
  /\ StronglySorted Rge (Returns.discounted_returns 0.99 (repeat 1 3)).
Proof.
  apply (X10_constant_rewards_returns_never_increase (fun x => x) 0.99 1 3).
  - intros x y H. exact H.
  - reflexivity.
  - lra.
  - lra.
Defined.

(** X12.  Line 58 keeps the order of the returns: on a tensor of at least
    two finite entries, with [eps > 0], every normalized entry is finite, and
    a return that is no larger than another has a normalized value that is no
    larger. *)
Theorem X12_normalize_keeps_order :
  forall (eps : R) (xs : list R),
    (2 <= length xs)%nat -> 0 < eps ->
    exists ys,
      normalize eps (torch.of_list xs) = torch.of_list ys
      /\ length ys = length xs
      /\ forall i j,
           (i < length xs)%nat -> (j < length xs)%nat ->
           nth i xs 0 <= nth j xs 0 -> nth i ys 0 <= nth j ys 0.
Proof.
  intros eps xs Hlen Heps. exists (rnormalize eps xs).
  split; [now apply TensorFacts.normalize_of_list|].
  split; [apply NormalizeFacts.rnormalize_length|].
  intros i j Hi Hj Hle.
  rewrite !NormalizeFacts.rnormalize_nth by assumption.
  pose proof (TensorFacts.rstd_nonneg xs) as Hs.
  unfold Rdiv. apply Rmult_le_compat_r.
  - left. apply Rinv_0_lt_compat. lra.
  - lra.
Qed.

Lemma X12_normalize_keeps_order_witness :
  exists ys,
    normalize float32_eps (torch.of_list [1; 2; 4]) = torch.of_list ys
    /\ length ys = length [1; 2; 4]
    /\ forall i j,
         (i < length [1; 2; 4])%nat -> (j < length [1; 2; 4])%nat ->
         nth i [1; 2; 4] 0 <= nth j [1; 2; 4] 0 -> nth i ys 0 <= nth j ys 0.
Proof.
  apply (X12_normalize_keeps_order float32_eps [1; 2; 4]).
  - simpl. lia.
  - exact NormalizedMoments.float32_eps_pos.
Defined.

(** ** The handlers of a completed episode *)

Section CompletedFacts.
Context {ext : Externals}.
Variables (args : Args) (eps : R).

(** What the three handlers of a completed episode print and decide, in the
    order of their registration. *)
Lemma epoch_completed_output w1 w' :
  fire (on_epoch_completed (trainer args eps)) w1 = Ok w' ->
  exists t rr rr',
    timestep (state w1) = Some t
    /\ running_reward (state w1) = Some rr
    /\ rr' = rr * 0.99 + INR t * 0.01
    /\ running_reward (state w') = Some rr'
    /\ stdout w'
       = stdout w1
         ++ (if (epoch (state w1) mod log_interval args =? 0)%nat
             then [Episode (epoch (state w1)) t rr'] else [])
         ++ (if Rgt_dec rr' (reward_threshold (env w1)) then [Solved rr' t] else [])
    /\ should_terminate w'
       = (if Rgt_dec rr' (reward_threshold (env w1)) then true
          else should_terminate w1).
Proof.
  cbn [trainer on_epoch_completed fire].
  unfold update_model at 1.
  destruct (timestep (state w1)) as [t|] eqn:Ht; [|discriminate].
  destruct (running_reward (state w1)) as [rr|] eqn:Hrr; [|discriminate].
  cbn [getattr bind].
  destruct (finish_episode (model w1) (optimizer w1) (gamma args) eps)
    as [[m o] [e|]]; [discriminate|].
  cbn [bind]. unfold every, log_episode, should_finish_training.
  cbn [state epoch timestep running_reward set_running_reward env].
  rewrite Ht.
  destruct (epoch (state w1) mod log_interval args =? 0)%nat;
    cbn [getattr bind print state epoch timestep running_reward
         set_running_reward env];
    rewrite ?Ht;
    destruct (Rgt_dec (rr * 0.99 + INR t * 0.01) (reward_threshold (env w1)))
      eqn:Hdec;
    cbn [getattr bind]; intro H; injection H as <-;
    exists t, rr, (rr * 0.99 + INR t * 0.01); cbn;
    rewrite Hdec, ?app_nil_r, <- ?app_assoc; now repeat split.
Qed.

End CompletedFacts.

Lemma boundary_world_completes :
  exists w',
    fire (on_epoch_completed (trainer default_args float32_eps)) boundary_world = Ok w'.
Proof.
  apply (epoch_completed_progress default_args float32_eps boundary_world 1%nat 10);
    try reflexivity; try discriminate.
  repeat constructor.
Qed.

(** X14.  At the end of an episode the three handlers run in the order of
    their registration: the running reward is updated first, so the periodic
    [Episode] line (printed when the episode number is a multiple of the log
    interval) and the [Solved] line (printed when the updated running reward
    is above the threshold) both report the updated value, [Solved] comes
    last, and the early-stop flag is raised exactly with it. *)
Theorem X14_epoch_completed_output :
  forall (ext : Externals) (args : Args) (eps : R) (w1 w' : World),
    fire (on_epoch_completed (trainer args eps)) w1 = Ok w' ->
    exists t rr rr',
      timestep (state w1) = Some t
      /\ running_reward (state w1) = Some rr
      /\ rr' = rr * 0.99 + INR t * 0.01
      /\ running_reward (state w') = Some rr'
      /\ stdout w'
         = stdout w1
           ++ (if (epoch (state w1) mod log_interval args =? 0)%nat
               then [Episode (epoch (state w1)) t rr'] else [])
           ++ (if Rgt_dec rr' (reward_threshold (env w1)) then [Solved rr' t] else [])
      /\ should_terminate w'
         = (if Rgt_dec rr' (reward_threshold (env w1)) then true
            else should_terminate w1).
Proof.
  intros ext args eps w1 w' H. now apply (epoch_completed_output args eps w1 w').
Qed.

Lemma X14_epoch_completed_output_witness :
  exists w' t rr rr',
    fire (on_epoch_completed (trainer default_args float32_eps)) boundary_world = Ok w'
    /\ timestep (state boundary_world) = Some t
    /\ running_reward (state boundary_world) = Some rr
    /\ rr' = rr * 0.99 + INR t * 0.01
    /\ running_reward (state w') = Some rr'
    /\ stdout w'
       = stdout boundary_world
         ++ (if (epoch (state boundary_world) mod log_interval default_args =? 0)%nat
             then [Episode (epoch (state boundary_world)) t rr'] else [])
         ++ (if Rgt_dec rr' (reward_threshold (env boundary_world))
             then [Solved rr' t] else [])
    /\ should_terminate w'
       = (if Rgt_dec rr' (reward_threshold (env boundary_world)) then true
          else should_terminate boundary_world).
Proof.
  destruct boundary_world_completes as [w' H].
  destruct (X14_epoch_completed_output two_step_world default_args float32_eps
              boundary_world w' H) as (t & rr & rr' & H1 & H2 & H3 & H4 & H5 & H6).
  exists w', t, rr, rr'.
  exact (conj H (conj H1 (conj H2 (conj H3 (conj H4 (conj H5 H6)))))).
Defined.

(** ** The whole script *)

Section ScriptFacts.
Context {ext : Externals}.
Variable args : Args.

(** The world [main] enters the loop with. *)
Lemma script_enters_loop :
  exists w0,
    script true args
    = internal_run (trainer args float32_eps) (seq 0 10000) (max_episodes args) w0
    /\ buffers_empty w0
    /\ should_terminate w0 = false
    /\ should_terminate_single_epoch w0 = false
    /\ running_reward (state w0) = Some 10
    /\ timestep (state w0) = None
    /\ epoch (state w0) = 0%nat
    /\ env w0 = env_seed (gym_make "CartPole-v1") (seed args)
    /\ stdout w0 = [].
Proof.
  unfold script, main.
  destruct (init_weights (manual_seed (seed args))) as [[[a h] v] rng1].
  unfold Engine_run. cbn [trainer on_started fire initialize bind].
  eexists. split; [reflexivity|]. cbn. now repeat split.
Qed.





(** An episode no step of which is the last. *)
Lemma run_once_on_dataset_never_done data : forall w obs,
  well_shaped_env -> (forall e a, step_done e a = false) ->
  observation (state w) = Some obs -> length obs = 4%nat ->
  should_terminate_single_epoch w = false ->
  exists w1,
    run_once_on_dataset (trainer args float32_eps) data w = Ok w1
    /\ timestep (state w1) = timestep (state w).
Proof.
  induction data as [|t data IH]; intros w obs Hshape Hnever Hobs Hlen Hflag.
  - exists w. now split.
  - destruct (run_single_timestep_progress args w t obs Hobs Hlen)
      as (action & w' & Hstep & _ & Hobs' & Hsingle & Ht).
    rewrite (Hnever (env w) action) in Hsingle, Ht.
    cbn [run_once_on_dataset trainer process_function]. rewrite Hstep. cbn [bind].
    rewrite Hsingle, Hflag. cbn [orb].
    destruct (IH w' (step_observation (env w) action) Hshape Hnever Hobs'
                (proj2 Hshape (env w) action))
      as (w1 & Hrun & Ht1).
    + now rewrite Hsingle, Hflag.
    + exists w1. split; [exact Hrun|]. now rewrite Ht1, Ht.
Qed.

Lemma run_epoch_never_done data w :
  well_shaped_env -> (forall e a, step_done e a = false) ->
  should_terminate_single_epoch w = false ->
  timestep (state w) = None ->
  run_epoch (trainer args float32_eps) data w = Raised (AttributeError "timestep").
Proof.
  intros Hshape Hnever Hflag Ht. unfold run_epoch.
  cbn [trainer on_epoch_started fire]. unfold reset_environment_state.
  pose proof (proj1 Hshape (env (begin_epoch w))) as Hlen.
  destruct (env_reset (env (begin_epoch w))) as [env' obs]. cbn [bind snd] in *.
  match goal with
  | |- (x <- run_once_on_dataset _ _ ?ws ;; _) = _ => set (ws0 := ws)
  end.
  destruct (run_once_on_dataset_never_done data ws0 obs Hshape Hnever eq_refl Hlen
              Hflag) as (w1 & Hrun & Ht1).
  fold (trainer args float32_eps). rewrite Hrun. cbn [bind].
  cbn [trainer on_epoch_completed fire]. unfold update_model.
  rewrite Ht1. cbn. rewrite Ht. reflexivity.
Qed.

Lemma run_epoch_misshapen data t w :
  length (snd (env_reset (env w))) <> 4%nat ->
  run_epoch (trainer args float32_eps) (t :: data) w
  = Raised (RuntimeError "mat1 and mat2 shapes cannot be multiplied").
Proof.
  intro Hlen. unfold run_epoch.
  cbn [trainer on_epoch_started fire]. unfold reset_environment_state.
  change (env (begin_epoch w)) with (env w).
  destruct (env_reset (env w)) as [env' obs]. cbn [bind snd] in *.
  cbn [run_once_on_dataset trainer process_function].
  unfold run_single_timestep at 1.
  cbn [state observation set_observation getattr bind rng].
  destruct (uniform (rng (begin_epoch w))) as [u rng'].
  rewrite (NetworkFacts.select_action_shape_error _ obs u Hlen).
  reflexivity.
Qed.

End ScriptFacts.



(** X16.  [engine.state.timestep] is assigned only by a step at which the
    environment signals the end of the episode.  With an environment that
    never does (and observations of four entries), the first episode runs all
    its steps and the update that follows raises the [AttributeError] of
    reading [timestep]: the script ends with it, whatever the cap on the
    episodes, unless the cap is 0. *)
Theorem X16_script_raises_without_done :
  forall (ext : Externals) (args : Args),
    well_shaped_env ->
    (forall e a, step_done e a = false) ->
    max_episodes args <> 0%nat ->
    script true args = Raised (AttributeError "timestep").
Proof.
  intros ext args Hshape Hnever Hcap.
  destruct (script_enters_loop args)
    as (w0 & E & _ & Hterm & Hflag & _ & Ht & _).
  rewrite E. apply internal_run_raises_at_once; auto.
  now apply run_epoch_never_done.
Qed.

Lemma X16_script_raises_without_done_witness :
  @script endless_world true default_args = Raised (AttributeError "timestep").
Proof.
  apply (X16_script_raises_without_done endless_world default_args).
  - split; intros; reflexivity.
  - intros e a. reflexivity.
  - exact cap_not_zero.
Defined.

(** X17.  With an environment whose first observation does not have four
    entries the script ends, at the first step of the first episode, with
    torch's shape error, unless the cap on the episodes is 0. *)
Theorem X17_script_raises_on_misshapen_observation :
  forall (ext : Externals) (args : Args),
    length (snd (env_reset (env_seed (gym_make "CartPole-v1") (seed args)))) <> 4%nat ->
    max_episodes args <> 0%nat ->
    script true args
    = Raised (RuntimeError "mat1 and mat2 shapes cannot be multiplied").
Proof.
  intros ext args Hlen Hcap.
  destruct (script_enters_loop args)
    as (w0 & E & _ & Hterm & _ & _ & _ & _ & Henv & _).
  rewrite E, first_timestep. apply internal_run_raises_at_once; auto.
  apply run_epoch_misshapen. now rewrite Henv.
Qed.

Lemma X17_script_raises_on_misshapen_observation_witness :
  @script empty_observation_world true default_args
  = Raised (RuntimeError "mat1 and mat2 shapes cannot be multiplied").
Proof.
  apply (X17_script_raises_on_misshapen_observation empty_observation_world
           default_args).
  - simpl. discriminate.
  - exact cap_not_zero.
Defined.

(** X18.  The early-stop flag is raised only at the end of an episode whose
    recorded step index is above the reward threshold: while the running
    reward was at or below the threshold before the update, no shorter
    episode can lift it above. *)
Theorem X18_solved_needs_long_episode :
  forall (ext : Externals) (args : Args) (eps : R) (w1 w' : World) (rr : R),
    running_reward (state w1) = Some rr ->
    rr <= reward_threshold (env w1) ->
    should_terminate w1 = false ->
    fire (on_epoch_completed (trainer args eps)) w1 = Ok w' ->
    should_terminate w' = true ->
    exists t,
      timestep (state w1) = Some t /\ INR t > reward_threshold (env w1).
Proof.
  intros ext args eps w1 w' rr Hrr Hle Hterm H Hstop.
  destruct (epoch_completed_output args eps w1 w' H)
    as (t & rr0 & rr' & Ht & Hrr0 & Hrr' & _ & _ & Hflag).
  rewrite Hrr in Hrr0. injection Hrr0 as <-.
  exists t. split; [exact Ht|].
  rewrite Hflag in Hstop.
  destruct (Rgt_dec rr' (reward_threshold (env w1))) as [Hgt|_];
    [|rewrite Hterm in Hstop; discriminate].
  subst rr'. lra.
Qed.

Lemma long_episode_world_completes :
  exists w',
    fire (on_epoch_completed (trainer default_args float32_eps)) long_episode_world
    = Ok w'
    /\ should_terminate w' = true.
Proof.
  destruct (epoch_completed_progress default_args float32_eps long_episode_world
              1000%nat 9)
    as [w' H]; try reflexivity; try discriminate; [repeat constructor|].
  exists w'. split; [exact H|].
  destruct (epoch_completed_output default_args float32_eps long_episode_world w' H)
    as (t & rr & rr' & Ht & Hrr & Hrr' & _ & _ & Hflag).
  injection Ht as <-. injection Hrr as <-.
  rewrite Hflag.
  destruct (Rgt_dec rr' (reward_threshold (env long_episode_world))) as [_|Hn];
    [reflexivity|].
  exfalso. apply Hn. subst rr'.
  change (reward_threshold (env long_episode_world)) with 9.5.
  assert (E : INR 1000 = 1000) by (rewrite INR_IZR_INZ; reflexivity).
  rewrite E. lra.
Qed.

Lemma X18_solved_needs_long_episode_witness :
  exists w' t,
    fire (on_epoch_completed (trainer default_args float32_eps)) long_episode_world
    = Ok w'
    /\ timestep (state long_episode_world) = Some t
    /\ INR t > reward_threshold (env long_episode_world).
Proof.
  destruct long_episode_world_completes as (w' & H & Hstop).
  assert (Hle : 9 <= reward_threshold (env long_episode_world))
    by (change (reward_threshold (env long_episode_world)) with 9.5; lra).
  destruct (X18_solved_needs_long_episode two_step_world default_args float32_eps
              long_episode_world w' 9 eq_refl Hle eq_refl H Hstop) as (t & Ht & Hgt).
  exists w', t. exact (conj H (conj Ht Hgt)).
Defined.
